(** * flow/envs/multiagent/highway.py

    A shallow embedding of the multi-agent highway environments
    ([MultiAgentHighwayPOEnv] and its subclasses): the observation encoder
    [get_state], the reward policies [compute_reward], the action dispatcher
    [_apply_rl_actions] and the parameter check of [__init__].

    Numbers are exact rationals ([Qc], rationals in lowest terms, so that
    equal numbers are equal terms).  Python exceptions are values of [exn]
    and every method that may raise returns a [result].  A Python [dict]
    that is built and returned is a [gmap]; a [dict] that is only iterated
    is an association list in insertion order. *)

From stdpp Require Import gmap strings list fin_maps numbers.
From Stdlib Require Import QArith Qcanon Ascii.

Local Open Scope Qc_scope.

(** ** Python values and exceptions *)

Inductive exn : Type :=
  | KeyError (arg : string)
  | ZeroDivisionError
  | IndexError
  | RecursionError.

Inductive result (A : Type) : Type :=
  | Ok (a : A)
  | Raise (e : exn).

Arguments Ok {A} a.
Arguments Raise {A} e.

#[global] Instance exn_eq_dec : EqDecision exn.
Proof. solve_decision. Defined.

#[global] Instance result_eq_dec {A} `{EqDecision A} : EqDecision (result A).
Proof. solve_decision. Defined.

#[global] Instance result_ret : MRet result := λ A a, Ok a.
#[global] Instance result_bind : MBind result := λ A B f r,
  match r with
  | Ok a => f a
  | Raise e => Raise e
  end.

(** [a # b] as a number of the model. *)
Definition frac (a : Z) (b : positive) : Qc := Q2Qc (a # b).

(** [x / y]: a zero divisor raises.  Where numpy would answer inf or nan for
    one of its own scalars, the model stops with the same exception: the
    rationals have no such values. *)
Definition py_div (x y : Qc) : result Qc :=
  if decide (y = 0) then Raise ZeroDivisionError else Ok (x / y).

(** [max(x, y)] and [min(x, y)]: the first argument is kept unless the second
    is strictly better. *)
Definition py_max (x y : Qc) : Qc := if decide (x < y) then y else x.
Definition py_min (x y : Qc) : Qc := if decide (y < x) then y else x.

(** [max(l)] of a non-empty list, scanning from the left. *)
Definition py_max_list (x : Qc) (l : list Qc) : Qc := foldl py_max x l.

(** [np.clip(x, lo, hi)] is [minimum(maximum(x, lo), hi)]. *)
Definition np_clip (x lo hi : Qc) : Qc := py_min (py_max x lo) hi.

(** [d[key]] on a dict. *)
Definition getitem {V} (d : gmap string V) (key : string) : result V :=
  match d !! key with
  | Some v => Ok v
  | None => Raise (KeyError key)
  end.

(** [x in ["", None]] for an identifier that is a string or [None]. *)
Definition in_empty_or_None (x : option string) : bool :=
  match x with
  | None => true
  | Some s => bool_decide (s = "")
  end.

(** The loop [for x in xs: d[x] = f(x)], stopping at the first exception. *)
Fixpoint for_update {V} (f : string → result V) (xs : list string)
    (d : gmap string V) : result (gmap string V) :=
  match xs with
  | [] => Ok d
  | x :: xs' => v ← f x; for_update f xs' (<[x := v]> d)
  end.

(** ** The simulator kernel, [self.k]

    The kernel is outside this module; what the environments read from it is
    a record of query results.  Vehicle and edge identifiers are strings, a
    lane is an integer.  [get_leader] and [get_follower] answer a string or
    [None]; where the code goes on to use such an answer as an identifier it
    has excluded [None], and [default ""] reads the string. *)

(** What the environments send to the kernel, in the order sent. *)
Inductive Command : Type :=
  | apply_acceleration (veh_id : string) (acc : Qc)
  | set_observed (veh_id : string).

Record Vehicle : Type := {
  get_rl_ids : list string;
  get_speed : string → Qc;
  get_leader : string → option string;
  get_follower : string → option string;
  get_headway : string → Qc;
  get_edge : string → string;
  get_lane : string → Z;
  get_position : string → Qc;
  get_x_by_id : string → Qc;
  get_ids_by_edge : string → list string;
}.

Record Network : Type := {
  max_speed : Qc;
  length : Qc;
  edge_length : string → Qc;
  speed_limit : string → Qc;
  prev_edge : string → Z → list (string * Z);
  get_junction_list : list string;
  total_edgestarts_dict : gmap string Qc;
}.

Record Kernel : Type := {
  vehicle : Vehicle;
  network : Network;
}.

Record EnvParams : Type := {
  evaluate : bool;
  additional_params : gmap string Qc;
}.

(** An environment object.  [desired_velocity] and [average_velocity] are the
    values that the functions of these names in [flow.core.rewards] compute on
    this environment ([desired_velocity fail] for [desired_velocity(self,
    fail=fail)]); that module is not part of these sources, so both are taken
    as given.  [recursion_limit] is the number of nested calls the interpreter
    still allows when a method of the environment is entered. *)
Record Env : Type := {
  env_params : EnvParams;
  k : Kernel;
  desired_velocity : bool → Qc;
  average_velocity : Qc;
  recursion_limit : nat;
}.

(** [kwargs['fail']] *)
Definition kwargs_fail (kwargs : gmap string bool) : result bool :=
  getitem kwargs "fail".

(** The action argument: [None] or a dict from agent ids to action vectors. *)
Definition Actions : Type := option (list (string * list Qc)).

Definition ADDITIONAL_ENV_PARAMS : list (string * Qc) :=
  [("max_accel", 1); ("max_decel", 1); ("target_velocity", frac 25 1)].

(** ** class MultiAgentHighwayPOEnv *)

Module MultiAgentHighwayPOEnv.

(** The five features of one agent, the body of the loop of [get_state]. *)
Definition observation (env : Env) (rl_id : string) : result (list Qc) :=
  let max_speed := max_speed (network (k env)) in
  let max_length := length (network (k env)) in
  let this_speed := get_speed (vehicle (k env)) rl_id in
  let lead_id := get_leader (vehicle (k env)) rl_id in
  let follower := get_follower (vehicle (k env)) rl_id in
  let '(lead_speed, lead_head) :=
    if in_empty_or_None lead_id then (max_speed, max_length)
    else (get_speed (vehicle (k env)) (default "" lead_id),
          get_headway (vehicle (k env)) rl_id) in
  let '(follow_speed, follow_head) :=
    if in_empty_or_None follower then (0, max_length)
    else (get_speed (vehicle (k env)) (default "" follower),
          get_headway (vehicle (k env)) (default "" follower)) in
  o0 ← py_div this_speed max_speed;
  o1 ← py_div (lead_speed - this_speed) max_speed;
  o2 ← py_div lead_head max_length;
  o3 ← py_div (this_speed - follow_speed) max_speed;
  o4 ← py_div follow_head max_length;
  Ok [o0; o1; o2; o3; o4].

Definition get_state (env : Env) : result (gmap string (list Qc)) :=
  for_update (observation env) (get_rl_ids (vehicle (k env))) ∅.

(** The parameter check that opens [__init__]: the first key of
    [ADDITIONAL_ENV_PARAMS] that is not supplied raises. *)
Definition not_supplied (p : string) : string :=
  "Environment parameter " +:+ String "034"%char (p +:+ String "034"%char " not supplied").

Fixpoint check_params (keys : list string) (params : gmap string Qc)
    : result unit :=
  match keys with
  | [] => Ok ()
  | p :: keys' =>
      if bool_decide (params !! p = None) then Raise (KeyError (not_supplied p))
      else check_params keys' params
  end.

Section Init.
(** [MultiEnv.__init__], the constructor of the parent class, builds the
    environment object; it is not part of these sources. *)
Context {SimParams NetworkSpec : Type}.
Variable super_init :
  EnvParams → SimParams → NetworkSpec → string → result Env.

Definition __init__ (env_params : EnvParams) (sim_params : SimParams)
    (network : NetworkSpec) (simulator : string) : result Env :=
  _ ← check_params (ADDITIONAL_ENV_PARAMS.*1) (additional_params env_params);
  super_init env_params sim_params network simulator.
End Init.

(** [if rl_actions:] holds for a dict with at least one entry. *)
Definition truth (rl_actions : Actions) : bool :=
  match rl_actions with
  | Some (_ :: _) => true
  | _ => false
  end.

(** The loop of [_apply_rl_actions] over the entries of the dict; [sent]
    is what the kernel has been sent so far.  An exception leaves the
    commands already sent in place. *)
Fixpoint apply_items (items : list (string * list Qc)) (sent : list Command)
    : result unit * list Command :=
  match items with
  | [] => (Ok (), sent)
  | (rl_id, actions) :: items' =>
      match actions !! 0%nat with
      | None => (Raise IndexError, sent)
      | Some accel => apply_items items' (sent ++ [apply_acceleration rl_id accel])
      end
  end.

Definition _apply_rl_actions (rl_actions : Actions) (sent : list Command)
    : result unit * list Command :=
  if truth rl_actions then apply_items (default [] rl_actions) sent
  else (Ok (), sent).

(** The reward of one agent, the body of the loop of [compute_reward]. *)
Definition reward (env : Env) (kwargs : gmap string bool) (rl_id : string)
    : result Qc :=
  let veh := vehicle (k env) in
  if evaluate (env_params env) then Ok (get_speed veh rl_id)
  else
    fail ← kwargs_fail kwargs;
    if (fail : bool) then Ok 0
    else
      fail' ← kwargs_fail kwargs;
      let cost1 := desired_velocity env fail' in
      let t_min := 1 in
      let lead_id := get_leader veh rl_id in
      cost2 ←
        (if negb (in_empty_or_None lead_id)
            && bool_decide (0 < get_speed veh rl_id)
         then
           q ← py_div (get_headway veh rl_id) (get_speed veh rl_id);
           let t_headway := py_max q 0 in
           d ← py_div (t_headway - t_min) t_min;
           Ok (0 + py_min d 0)
         else Ok 0);
      let eta1 := 1 in
      let eta2 := 0 in
      Ok (py_max (eta1 * cost1 + eta2 * cost2) 0).

Definition compute_reward (env : Env) (rl_actions : Actions)
    (kwargs : gmap string bool) : result (gmap string Qc) :=
  match rl_actions with
  | None => Ok ∅
  | Some _ => for_update (reward env kwargs) (get_rl_ids (vehicle (k env))) ∅
  end.

(** [additional_command]: leaders and followers of the agents are marked
    as observed. *)
Definition mark (x : option string) : list Command :=
  if in_empty_or_None x then [] else [set_observed (default "" x)].

Definition additional_command (env : Env) (sent : list Command)
    : list Command :=
  foldl (λ sent rl_id,
           sent ++ mark (get_leader (vehicle (k env)) rl_id)
                ++ mark (get_follower (vehicle (k env)) rl_id))
        sent (get_rl_ids (vehicle (k env))).

End MultiAgentHighwayPOEnv.

(** ** class MultiAgentHighwayPOEnvLocalReward(MultiAgentHighwayPOEnv) *)

Module MultiAgentHighwayPOEnvLocalReward.

Definition _veh_edge_lane (env : Env) (edge : string) (lane : Z)
    : list string :=
  filter (λ veh, get_lane (vehicle (k env)) veh = lane)
         (get_ids_by_edge (vehicle (k env)) edge).

(** [depth] is the number of nested calls still allowed; the interpreter
    raises [RecursionError] when it is used up. *)
Fixpoint _veh_edge_lane_backward_pass (depth : nat) (env : Env)
    (edge : string) (lane : Z) (junctions : gset string)
    : result (list string) :=
  match depth with
  | O => Raise RecursionError
  | S depth' =>
      foldl (λ acc '(prev_edge, prev_lane),
               veh ← acc;
               veh ← (if bool_decide (prev_edge ∈ junctions)
                      then
                        up ← _veh_edge_lane_backward_pass
                               depth' env prev_edge prev_lane junctions;
                        Ok (veh ++ up)
                      else Ok veh);
               Ok (veh ++ _veh_edge_lane env prev_edge prev_lane))
            (Ok []) (prev_edge (network (k env)) edge lane)
  end.

(** [np.sum(vel)] and [any(vel < -100)] *)
Definition np_sum (vel : list Qc) : Qc := foldr Qcplus 0 vel.
Definition any_below (bound : Qc) (vel : list Qc) : bool :=
  existsb (λ v, bool_decide (v < bound)) vel.

Definition _compute_avgspeed_agent (env : Env) (kwargs : gmap string bool)
    (rl_id : string) : result Qc :=
  let veh := vehicle (k env) in
  fail ← kwargs_fail kwargs;
  if (fail : bool) then Ok 0
  else
    let edge := get_edge veh rl_id in
    let lane := get_lane veh rl_id in
    let pos := get_position veh edge in
    let edge_veh := get_ids_by_edge veh edge in
    let junctions : gset string :=
      list_to_set (get_junction_list (network (k env))) in
    let neighbours :=
      filter (λ v, get_lane veh v = lane ∧ get_position veh v ≤ pos)
             edge_veh in
    back ← _veh_edge_lane_backward_pass
             (recursion_limit env) env edge lane junctions;
    let neighbours := neighbours ++ back in
    if bool_decide (List.length neighbours = 0%nat) then Ok 0
    else
      let vel := get_speed veh <$> neighbours in
      if any_below (- frac 100 1) vel then Ok 0
      else py_div (np_sum vel) (Qc_of_Z (Z.of_nat (List.length vel))).

Definition _compute_avgspeednormalized_agent (env : Env)
    (kwargs : gmap string bool) (rl_id : string) : result Qc :=
  reward ← _compute_avgspeed_agent env kwargs rl_id;
  py_div reward
    (speed_limit (network (k env)) (get_edge (vehicle (k env)) rl_id)).

Definition compute_reward (env : Env) (rl_actions : Actions)
    (kwargs : gmap string bool) : result (gmap string Qc) :=
  match rl_actions with
  | None => Ok ∅
  | Some _ =>
      for_update (_compute_avgspeednormalized_agent env kwargs)
                 (get_rl_ids (vehicle (k env))) ∅
  end.

End MultiAgentHighwayPOEnvLocalReward.

(** ** class MultiAgentHighwayPOEnvDistanceMergeInfo(MultiAgentHighwayPOEnv) *)

Module MultiAgentHighwayPOEnvDistanceMergeInfo.

(** What [get_state] computes before its loop: the merge feature. *)
Definition merge_distance (env : Env) : result Qc :=
  let merge_vehs := get_ids_by_edge (vehicle (k env)) "bottom" in
  let merge_dists := get_position (vehicle (k env)) <$> merge_vehs in
  let len_bottom := edge_length (network (k env)) "bottom" in
  position ← getitem (total_edgestarts_dict (network (k env))) "bottom";
  match merge_dists with
  | [] => Ok 1
  | d :: ds =>
      let position := py_max_list d ds in
      py_div (len_bottom - position) len_bottom
  end.

(** The seven features of one agent, the body of the loop. *)
Definition observation (env : Env) (merge_distance : Qc) (rl_id : string)
    : result (list Qc) :=
  let max_speed := max_speed (network (k env)) in
  let max_length := length (network (k env)) in
  let this_speed := get_speed (vehicle (k env)) rl_id in
  let lead_id := get_leader (vehicle (k env)) rl_id in
  let follower := get_follower (vehicle (k env)) rl_id in
  let '(lead_speed, lead_head) :=
    if in_empty_or_None lead_id then (max_speed, max_length)
    else (get_speed (vehicle (k env)) (default "" lead_id),
          get_headway (vehicle (k env)) rl_id) in
  let '(follow_speed, follow_head) :=
    if in_empty_or_None follower then (0, max_length)
    else (get_speed (vehicle (k env)) (default "" follower),
          get_headway (vehicle (k env)) (default "" follower)) in
  let veh_x := get_x_by_id (vehicle (k env)) rl_id in
  let edge := get_edge (vehicle (k env)) rl_id in
  center_x ← getitem (total_edgestarts_dict (network (k env))) "center";
  distance ←
    (if bool_decide (edge ∈ ["inflow_highway"; "left"; "center"])
     then py_div (veh_x - center_x) center_x
     else Ok 1);
  o0 ← py_div this_speed max_speed;
  o1 ← py_div (lead_speed - this_speed) max_speed;
  o2 ← py_div lead_head max_length;
  o3 ← py_div (this_speed - follow_speed) max_speed;
  o4 ← py_div follow_head max_length;
  Ok [o0; o1; o2; o3; o4;
      np_clip distance (-1) 1; np_clip merge_distance (-1) 1].

Definition get_state (env : Env) : result (gmap string (list Qc)) :=
  merge_distance ← merge_distance env;
  for_update (observation env merge_distance)
             (get_rl_ids (vehicle (k env))) ∅.

End MultiAgentHighwayPOEnvDistanceMergeInfo.

(** ** The constant and the shared reward classes *)

Module MultiAgentHighwayPOEnvDistanceMergeInfoNegative.

Definition compute_reward (env : Env) (rl_actions : Actions)
    (kwargs : gmap string bool) : result (gmap string Qc) :=
  match rl_actions with
  | None => Ok ∅
  | Some _ =>
      for_update (λ _, Ok (- frac 1 10)) (get_rl_ids (vehicle (k env))) ∅
  end.

End MultiAgentHighwayPOEnvDistanceMergeInfoNegative.

Module MultiAgentHighwayPOEnvDistanceMergeInfoCollaborate.

Definition compute_reward (env : Env) (rl_actions : Actions)
    (kwargs : gmap string bool) : result (gmap string Qc) :=
  match rl_actions with
  | None => Ok ∅
  | Some _ =>
      let eta1 := frac 1 2 in
      let eta2 := frac 1 2 in
      let reward1 := - 1 in
      reward2 ← py_div (average_velocity env) (frac 30 1);
      let reward := reward1 * eta1 + reward2 * eta2 in
      for_update (λ _, Ok reward) (get_rl_ids (vehicle (k env))) ∅
  end.

End MultiAgentHighwayPOEnvDistanceMergeInfoCollaborate.

Module MultiAgentHighwayPOEnvNegative.

Definition compute_reward (env : Env) (rl_actions : Actions)
    (kwargs : gmap string bool) : result (gmap string Qc) :=
  match rl_actions with
  | None => Ok ∅
  | Some _ =>
      for_update (λ _, Ok (- frac 1 10)) (get_rl_ids (vehicle (k env))) ∅
  end.

End MultiAgentHighwayPOEnvNegative.

Module MultiAgentHighwayPOEnvCollaborate.

Definition compute_reward (env : Env) (rl_actions : Actions)
    (kwargs : gmap string bool) : result (gmap string Qc) :=
  match rl_actions with
  | None => Ok ∅
  | Some _ =>
      let eta1 := frac 1 2 in
      let eta2 := frac 1 2 in
      let reward1 := - 1 in
      reward2 ← py_div (average_velocity env) (frac 30 1);
      let reward := reward1 * eta1 + reward2 * eta2 in
      for_update (λ _, Ok reward) (get_rl_ids (vehicle (k env))) ∅
  end.

End MultiAgentHighwayPOEnvCollaborate.

(** ** The seven classes and the methods each one resolves to *)

Inductive EnvClass : Type :=
  | POEnv
  | POEnvLocalReward
  | POEnvDistanceMergeInfo
  | POEnvDistanceMergeInfoNegative
  | POEnvDistanceMergeInfoCollaborate
  | POEnvNegative
  | POEnvCollaborate.

Definition get_state (c : EnvClass) : Env → result (gmap string (list Qc)) :=
  match c with
  | POEnv | POEnvLocalReward | POEnvNegative | POEnvCollaborate =>
      MultiAgentHighwayPOEnv.get_state
  | POEnvDistanceMergeInfo | POEnvDistanceMergeInfoNegative
  | POEnvDistanceMergeInfoCollaborate =>
      MultiAgentHighwayPOEnvDistanceMergeInfo.get_state
  end.

Definition compute_reward (c : EnvClass)
    : Env → Actions → gmap string bool → result (gmap string Qc) :=
  match c with
  | POEnv | POEnvDistanceMergeInfo => MultiAgentHighwayPOEnv.compute_reward
  | POEnvLocalReward => MultiAgentHighwayPOEnvLocalReward.compute_reward
  | POEnvDistanceMergeInfoNegative =>
      MultiAgentHighwayPOEnvDistanceMergeInfoNegative.compute_reward
  | POEnvDistanceMergeInfoCollaborate =>
      MultiAgentHighwayPOEnvDistanceMergeInfoCollaborate.compute_reward
  | POEnvNegative => MultiAgentHighwayPOEnvNegative.compute_reward
  | POEnvCollaborate => MultiAgentHighwayPOEnvCollaborate.compute_reward
  end.

(** ** Concrete kernels

    A kernel given by tables, answering an error value for an identifier that
    is not in the table, which is what the queries of the simulator kernel do
    (numbers default to -1001, identifiers to the empty string). *)

Definition table {V} (error : V) (rows : list (string * V)) (id : string) : V :=
  default error ((list_to_map rows : gmap string V) !! id).

Definition error_value : Qc := - frac 1001 1.

Definition no_vehicles : Vehicle := {|
  get_rl_ids := [];
  get_speed := table error_value [];
  get_leader := table (Some "") [];
  get_follower := table (Some "") [];
  get_headway := table error_value [];
  get_edge := table "" [];
  get_lane := table (-1001)%Z [];
  get_position := table error_value [];
  get_x_by_id := table error_value [];
  get_ids_by_edge := table [] [];
|}.

(** A network of one edge, [highway_0], 100 long, with speed limit 30. *)
Definition one_edge_network : Network := {|
  max_speed := frac 30 1;
  length := frac 100 1;
  edge_length := table error_value [("highway_0", frac 100 1)];
  speed_limit := table error_value [("highway_0", frac 30 1)];
  prev_edge := λ _ _, [];
  get_junction_list := [];
  total_edgestarts_dict := {[ "highway_0" := 0 ]};
|}.

Definition training_params : EnvParams := {|
  evaluate := false;
  additional_params := list_to_map ADDITIONAL_ENV_PARAMS;
|}.

(** Parameters without [target_velocity]. *)
Definition incomplete_params : EnvParams := {|
  evaluate := false;
  additional_params := {[ "max_accel" := 1; "max_decel" := 1 ]};
|}.

Definition make_env (veh : Vehicle) (net : Network) : Env := {|
  env_params := training_params;
  k := {| vehicle := veh; network := net |};
  desired_velocity := λ _, frac 4 5;
  average_velocity := frac 12 1;
  recursion_limit := 1000;
|}.

(** Agent A at speed 10 with leader B, 5 ahead at speed 15, and no follower. *)
Definition scenario_vehicles : Vehicle := {|
  get_rl_ids := ["A"];
  get_speed := table error_value [("A", frac 10 1); ("B", frac 15 1)];
  get_leader := table (Some "") [("A", Some "B"); ("B", None)];
  get_follower := table (Some "") [("A", None); ("B", Some "A")];
  get_headway := table error_value [("A", frac 5 1); ("B", frac 1000 1)];
  get_edge := table "" [("A", "highway_0"); ("B", "highway_0")];
  get_lane := table (-1001)%Z [("A", 0%Z); ("B", 0%Z)];
  get_position := table error_value [("A", frac 40 1); ("B", frac 50 1)];
  get_x_by_id := table error_value [("A", frac 40 1); ("B", frac 50 1)];
  get_ids_by_edge := table [] [("highway_0", ["A"; "B"])];
|}.

Definition scenario : Env := make_env scenario_vehicles one_edge_network.

(** Agent A alone on the road, at speed 10. *)
Definition lone_vehicles : Vehicle := {|
  get_rl_ids := ["A"];
  get_speed := table error_value [("A", frac 10 1)];
  get_leader := table (Some "") [("A", Some "")];
  get_follower := table (Some "") [("A", Some "")];
  get_headway := table error_value [("A", frac 1000 1)];
  get_edge := table "" [("A", "highway_0")];
  get_lane := table (-1001)%Z [("A", 0%Z)];
  get_position := table error_value [("A", frac 40 1)];
  get_x_by_id := table error_value [("A", frac 40 1)];
  get_ids_by_edge := table [] [("highway_0", ["A"])];
|}.

Definition lone_agent : Env := make_env lone_vehicles one_edge_network.

(** Agent rl_0 at position 50 of highway_0 at speed 20, and human_0 behind it
    on the same lane, at position 20 and speed 10.  No vehicle is called
    highway_0, so the kernel answers its error value for the position of
    that identifier. *)
Definition two_vehicles : Vehicle := {|
  get_rl_ids := ["rl_0"];
  get_speed := table error_value [("rl_0", frac 20 1); ("human_0", frac 10 1)];
  get_leader := table (Some "") [("rl_0", Some ""); ("human_0", Some "rl_0")];
  get_follower := table (Some "") [("rl_0", Some "human_0"); ("human_0", Some "")];
  get_headway := table error_value [("rl_0", frac 1000 1); ("human_0", frac 25 1)];
  get_edge := table "" [("rl_0", "highway_0"); ("human_0", "highway_0")];
  get_lane := table (-1001)%Z [("rl_0", 0%Z); ("human_0", 0%Z)];
  get_position := table error_value [("rl_0", frac 50 1); ("human_0", frac 20 1)];
  get_x_by_id := table error_value [("rl_0", frac 50 1); ("human_0", frac 20 1)];
  get_ids_by_edge := table [] [("highway_0", ["human_0"; "rl_0"])];
|}.

Definition platoon : Env := make_env two_vehicles one_edge_network.

(** The merge network: a highway [inflow_highway], [left], [center] joined at
    the junction [:center] by the ramp [inflow_merge], [bottom]. *)
Definition merge_network : Network := {|
  max_speed := frac 30 1;
  length := frac 1000 1;
  edge_length :=
    table error_value
      [("inflow_highway", frac 100 1); ("left", frac 500 1);
       ("center", frac 200 1); ("inflow_merge", frac 100 1);
       ("bottom", frac 100 1)];
  speed_limit :=
    table error_value
      [("inflow_highway", frac 30 1); ("left", frac 30 1);
       ("center", frac 30 1); ("inflow_merge", frac 30 1);
       ("bottom", frac 30 1); (":left", frac 30 1); (":center", frac 30 1);
       (":bottom", frac 30 1)];
  prev_edge := λ edge _,
    table []
      [("left", [(":left", 0%Z)]); (":left", [("inflow_highway", 0%Z)]);
       ("center", [(":center", 0%Z)]);
       (":center", [("left", 0%Z); ("bottom", 0%Z)]);
       ("bottom", [(":bottom", 0%Z)]); (":bottom", [("inflow_merge", 0%Z)])]
      edge;
  get_junction_list := [":left"; ":center"; ":bottom"];
  total_edgestarts_dict :=
    list_to_map
      [("inflow_highway", 0); ("left", frac 100 1); ("center", frac 600 1);
       ("inflow_merge", frac 800 1); ("bottom", frac 900 1)];
|}.

(** Agent rl_0 on [left] at speed 33, above the speed limit of 30, behind
    human_0 on [center]; human_1 is on the ramp. *)
Definition merge_vehicles : Vehicle := {|
  get_rl_ids := ["rl_0"];
  get_speed :=
    table error_value
      [("rl_0", frac 33 1); ("human_0", frac 20 1); ("human_1", frac 10 1)];
  get_leader :=
    table (Some "") [("rl_0", Some "human_0"); ("human_0", None);
                     ("human_1", None)];
  get_follower :=
    table (Some "") [("rl_0", None); ("human_0", Some "rl_0");
                     ("human_1", None)];
  get_headway :=
    table error_value
      [("rl_0", frac 150 1); ("human_0", frac 1000 1);
       ("human_1", frac 1000 1)];
  get_edge :=
    table "" [("rl_0", "left"); ("human_0", "center"); ("human_1", "bottom")];
  get_lane := table (-1001)%Z [("rl_0", 0%Z); ("human_0", 0%Z); ("human_1", 0%Z)];
  get_position :=
    table error_value
      [("rl_0", frac 400 1); ("human_0", frac 50 1); ("human_1", frac 60 1)];
  get_x_by_id :=
    table error_value
      [("rl_0", frac 500 1); ("human_0", frac 650 1); ("human_1", frac 960 1)];
  get_ids_by_edge :=
    table [] [("left", ["rl_0"]); ("center", ["human_0"]);
              ("bottom", ["human_1"])];
|}.

Definition merge : Env := make_env merge_vehicles merge_network.

(** The one-edge highway with no vehicle on it. *)
Definition empty_highway : Env := make_env no_vehicles one_edge_network.

(** The classes that inherit the seven-feature encoder. *)
Definition merge_aware (c : EnvClass) : bool :=
  match c with
  | POEnvDistanceMergeInfo | POEnvDistanceMergeInfoNegative
  | POEnvDistanceMergeInfoCollaborate => true
  | _ => false
  end.

(** ** The observation of the base class *)

(** The substitutions of the encoder, as the specification words them. *)
Module Spec.
Definition visible (x : option string) : bool :=
  match x with
  | None | Some "" => false
  | Some _ => true
  end.

Definition lead_speed (env : Env) (rl_id : string) : Qc :=
  match get_leader (vehicle (k env)) rl_id with
  | Some l => if visible (Some l) then get_speed (vehicle (k env)) l
              else max_speed (network (k env))
  | None => max_speed (network (k env))
  end.

Definition lead_headway (env : Env) (rl_id : string) : Qc :=
  if visible (get_leader (vehicle (k env)) rl_id)
  then get_headway (vehicle (k env)) rl_id
  else length (network (k env)).

Definition follow_speed (env : Env) (rl_id : string) : Qc :=
  match get_follower (vehicle (k env)) rl_id with
  | Some f => if visible (Some f) then get_speed (vehicle (k env)) f else 0
  | None => 0
  end.

Definition follow_headway (env : Env) (rl_id : string) : Qc :=
  match get_follower (vehicle (k env)) rl_id with
  | Some f => if visible (Some f) then get_headway (vehicle (k env)) f
              else length (network (k env))
  | None => length (network (k env))
  end.

(** The five features as the specification lists them. *)
Definition base_vector (env : Env) (rl_id : string) : list Qc :=
  let v := get_speed (vehicle (k env)) rl_id in
  let max_speed := max_speed (network (k env)) in
  let max_length := length (network (k env)) in
  [ v / max_speed;
    (lead_speed env rl_id - v) / max_speed;
    lead_headway env rl_id / max_length;
    (v - follow_speed env rl_id) / max_speed;
    follow_headway env rl_id / max_length ].

(** The local average as the specification words it: the vehicles of the
    agent's lane at or behind the position of the agent on its edge, and those
    the backward traversal collects. *)
Definition avgspeed_behind_agent (env : Env) (kwargs : gmap string bool)
    (rl_id : string) : result Qc :=
  let veh := vehicle (k env) in
  fail ← kwargs_fail kwargs;
  if (fail : bool) then Ok 0
  else
    let edge := get_edge veh rl_id in
    let lane := get_lane veh rl_id in
    let pos := get_position veh rl_id in
    let junctions : gset string :=
      list_to_set (get_junction_list (network (k env))) in
    let neighbours :=
      filter (λ v, get_lane veh v = lane ∧ get_position veh v ≤ pos)
             (get_ids_by_edge veh edge) in
    back ← MultiAgentHighwayPOEnvLocalReward._veh_edge_lane_backward_pass
             (recursion_limit env) env edge lane junctions;
    let vel := get_speed veh <$> (neighbours ++ back) in
    if bool_decide (vel = []) then Ok 0
    else if MultiAgentHighwayPOEnvLocalReward.any_below (- frac 100 1) vel
    then Ok 0
    else py_div (MultiAgentHighwayPOEnvLocalReward.np_sum vel)
                (Qc_of_Z (Z.of_nat (List.length vel))).

Definition local_reward (env : Env) (kwargs : gmap string bool)
    (rl_id : string) : result Qc :=
  reward ← avgspeed_behind_agent env kwargs rl_id;
  py_div reward
    (speed_limit (network (k env)) (get_edge (vehicle (k env)) rl_id)).

(** [x] is within [tol] of [y]. *)
Definition within (tol x y : Qc) : Prop := y - tol ≤ x ∧ x ≤ y + tol.
End Spec.


(** ** The declared spaces *)

(** A bound of a [Box]: a number or an infinity. *)
Inductive bound : Type :=
  | neg_inf
  | finite (x : Qc)
  | pos_inf.

(** [Box(low, high, shape=(n,))] with scalar bounds. *)
Record Box : Type := {
  low : bound;
  high : bound;
  shape : nat;
}.

(** [np.abs(x)] *)
Definition np_abs (x : Qc) : Qc := if decide (x < 0) then - x else x.

(** [observation_space]: the base class declares it, the merge-aware class
    overrides it, the other classes inherit. *)
Definition observation_space (c : EnvClass) : Box :=
  if merge_aware c
  then {| low := finite (-1); high := finite 1; shape := 7 |}
  else {| low := neg_inf; high := pos_inf; shape := 5 |}.

(** [action_space], the same in every class. *)
Definition action_space (env_params : EnvParams) : result Box :=
  max_decel ← getitem (additional_params env_params) "max_decel";
  max_accel ← getitem (additional_params env_params) "max_accel";
  Ok {| low := finite (- np_abs max_decel);
        high := finite max_accel;
        shape := 1 |}.

(** ** What the properties below are stated with *)

(** [p] is a lane of an edge that the backward traversal visits from
    [(edge, lane)]: a predecessor, or a predecessor reached through
    predecessors that are junctions. *)
Inductive upstream (env : Env) (junctions : gset string)
    : string * Z → string * Z → Prop :=
  | upstream_prev edge lane p :
      p ∈ prev_edge (network (k env)) edge lane →
      upstream env junctions (edge, lane) p
  | upstream_junction edge lane prev_e prev_l p :
      (prev_e, prev_l) ∈ prev_edge (network (k env)) edge lane →
      prev_e ∈ junctions →
      upstream env junctions (prev_e, prev_l) p →
      upstream env junctions (edge, lane) p.

(** The command that [_apply_rl_actions] sends for one entry of the dict. *)
Definition accel_command (item : string * list Qc) : Command :=
  apply_acceleration item.1 (default 0 (item.2 !! 0%nat)).

(** The scenario in evaluation mode. *)
Definition evaluation : Env := {|
  env_params := {| evaluate := true;
                   additional_params := list_to_map ADDITIONAL_ENV_PARAMS |};
  k := k scenario;
  desired_velocity := desired_velocity scenario;
  average_velocity := average_velocity scenario;
  recursion_limit := recursion_limit scenario;
|}.

(** A ring whose junction [:loop] is its own predecessor. *)
Definition ring_network : Network := {|
  max_speed := frac 30 1;
  length := frac 100 1;
  edge_length := table error_value [("ring", frac 100 1)];
  speed_limit := table error_value [("ring", frac 30 1); (":loop", frac 30 1)];
  prev_edge := λ edge _,
    table [] [("ring", [(":loop", 0%Z)]); (":loop", [(":loop", 0%Z)])] edge;
  get_junction_list := [":loop"];
  total_edgestarts_dict := {[ "ring" := 0 ]};
|}.

(** A network whose constants are zero. *)
Definition degenerate_network : Network := {|
  max_speed := 0;
  length := 0;
  edge_length := λ _, 0;
  speed_limit := λ _, 0;
  prev_edge := λ _ _, [];
  get_junction_list := [];
  total_edgestarts_dict := ∅;
|}.

(** One turn of the loop of [_veh_edge_lane_backward_pass] over the
    predecessors, with [up] for the nested call. *)
Definition backward_step (env : Env) (junctions : gset string)
    (up : string → Z → result (list string))
    (acc : result (list string)) (p : string * Z) : result (list string) :=
  veh ← acc;
  veh ← (if bool_decide (p.1 ∈ junctions)
         then above ← up p.1 p.2; Ok (veh ++ above)
         else Ok veh);
  Ok (veh ++ MultiAgentHighwayPOEnvLocalReward._veh_edge_lane env p.1 p.2).

(** Agent rl_0 on the ring. *)
Definition ring_vehicles : Vehicle := {|
  get_rl_ids := ["rl_0"];
  get_speed := table error_value [("rl_0", frac 20 1)];
  get_leader := table (Some "") [("rl_0", Some "")];
  get_follower := table (Some "") [("rl_0", Some "")];
  get_headway := table error_value [("rl_0", frac 1000 1)];
  get_edge := table "" [("rl_0", "ring")];
  get_lane := table (-1001)%Z [("rl_0", 0%Z)];
  get_position := table error_value [("rl_0", frac 50 1)];
  get_x_by_id := table error_value [("rl_0", frac 50 1)];
  get_ids_by_edge := table [] [("ring", ["rl_0"])];
|}.

Definition ring : Env := make_env ring_vehicles ring_network.

(** A network that has the ramp edge [bottom] and no edge [center]. *)
Definition ramp_network : Network := {|
  max_speed := frac 30 1;
  length := frac 100 1;
  edge_length := table error_value [("bottom", frac 100 1)];
  speed_limit := table error_value [("bottom", frac 30 1)];
  prev_edge := λ _ _, [];
  get_junction_list := [];
  total_edgestarts_dict := {[ "bottom" := 0 ]};
|}.

(** A ranking of the lanes of the merge network: every junction lies below
    the edge it leads to. *)
Definition merge_rank (edge : string) (lane : Z) : nat :=
  table 0%nat [("center", 2%nat); ("left", 1%nat); ("bottom", 1%nat)] edge.
(** * Properties *)

(** ** Arithmetic of the model *)

Lemma py_div_Ok (x y : Qc) : y ≠ 0 → py_div x y = Ok (x / y).
Proof. intros Hy. unfold py_div. by destruct (decide (y = 0)). Qed.

Lemma py_div_zero (x : Qc) : py_div x 0 = Raise ZeroDivisionError.
Proof. unfold py_div. by destruct (decide (0 = 0)). Qed.

Lemma Qcdiv_self (x : Qc) : x ≠ 0 → x / x = 1.
Proof. intros Hx. unfold Qcdiv. by apply Qcmult_inv_r. Qed.

Lemma py_max_ge_r (x y : Qc) : y ≤ py_max x y.
Proof.
  unfold py_max. destruct (decide (x < y)) as [H|H]; [done|].
  by apply Qcnot_lt_le.
Qed.

Lemma py_max_ge_l (x y : Qc) : x ≤ py_max x y.
Proof.
  unfold py_max. destruct (decide (x < y)) as [H|H]; [|done].
  by apply Qclt_le_weak.
Qed.

Lemma py_min_le_r (x y : Qc) : py_min x y ≤ y.
Proof.
  unfold py_min. destruct (decide (y < x)) as [H|H]; [done|].
  by apply Qcnot_lt_le.
Qed.

Lemma py_min_glb (x y z : Qc) : z ≤ x → z ≤ y → z ≤ py_min x y.
Proof. intros Hx Hy. unfold py_min. by destruct (decide (y < x)). Qed.

Lemma np_clip_bounds (x lo hi : Qc) :
  lo ≤ hi → lo ≤ np_clip x lo hi ∧ np_clip x lo hi ≤ hi.
Proof.
  intros Hlh. unfold np_clip. split.
  - apply py_min_glb; [apply py_max_ge_r | done].
  - apply py_min_le_r.
Qed.

(** ** Exceptions *)

Lemma bind_Ok_inv {A B} (r : result A) (f : A → result B) (b : B) :
  r ≫= f = Ok b → ∃ a, r = Ok a ∧ f a = Ok b.
Proof. destruct r as [a|e]; simpl; [by eexists | done]. Qed.

(** Splits a sequence of calls that returned into its calls. *)
Ltac inv_bind H :=
  repeat match type of H with
         | _ ≫= _ = Ok _ =>
             let a := fresh "a" in
             let Ha := fresh "Ha" in
             apply bind_Ok_inv in H as (a & Ha & H)
         end.

(** ** The loop that fills a dict *)

Lemma for_update_spec {V} (f : string → result V) (g : string → V)
    (xs : list string) (d : gmap string V) :
  (∀ x, x ∈ xs → f x = Ok (g x)) →
  ∃ m, for_update f xs d = Ok m
       ∧ ∀ x, m !! x = if decide (x ∈ xs) then Some (g x) else d !! x.
Proof.
  revert d. induction xs as [|a xs IH]; intros d Hf; simpl.
  - exists d. split; [done|]. intros x. destruct (decide (x ∈ [])) as [H|H]; [|done].
    by apply elem_of_nil in H.
  - rewrite (Hf a) by left. simpl.
    destruct (IH (<[a := g a]> d)) as (m & Hm & Hlook).
    { intros x Hx. apply Hf. by right. }
    exists m. split; [done|]. intros x. rewrite Hlook.
    destruct (decide (x ∈ xs)) as [Hin|Hnin].
    + rewrite decide_True; [done | by right].
    + destruct (decide (x = a)) as [->|Hne].
      * rewrite decide_True by left. by rewrite lookup_insert_eq.
      * rewrite lookup_insert_ne by done.
        rewrite decide_False; [done|]. intros Hx.
        apply elem_of_cons in Hx as [?|?]; done.
Qed.

Lemma for_update_dom {V} (f : string → result V) (xs : list string)
    (d m : gmap string V) :
  for_update f xs d = Ok m → dom m = list_to_set xs ∪ dom d.
Proof.
  revert d. induction xs as [|a xs IH]; intros d; simpl.
  - intros [= ->]. set_solver.
  - destruct (f a) as [v|e]; simpl; [|done].
    intros H. apply IH in H. rewrite H, dom_insert_L. set_solver.
Qed.

Lemma for_update_const {V} (f : string → result V) (c : V) (xs : list string) :
  (∀ x, x ∈ xs → f x = Ok c) →
  for_update f xs ∅ = Ok (gset_to_gmap c (list_to_set xs)).
Proof.
  intros Hf.
  destruct (for_update_spec f (λ _, c) xs ∅ Hf) as (m & -> & Hm).
  f_equal. apply map_eq. intros x.
  rewrite Hm, lookup_gset_to_gmap, lookup_empty.
  destruct (decide (x ∈ xs)) as [H|H].
  - by rewrite option_guard_True by set_solver.
  - by rewrite option_guard_False by set_solver.
Qed.

Lemma for_update_Ok {V} (f : string → result V) (xs : list string)
    (d : gmap string V) :
  (∀ x, x ∈ xs → ∃ v, f x = Ok v) → ∃ m, for_update f xs d = Ok m.
Proof.
  revert d. induction xs as [|a xs IH]; intros d Hf; simpl; [by eexists|].
  destruct (Hf a) as [v ->]; [left|]. simpl.
  apply IH. intros x Hx. apply Hf. by right.
Qed.

Lemma for_update_Forall {V} (P : string → V → Prop) (f : string → result V)
    (xs : list string) (d m : gmap string V) :
  (∀ x v, f x = Ok v → P x v) →
  map_Forall P d →
  for_update f xs d = Ok m →
  map_Forall P m.
Proof.
  intros Hf. revert d. induction xs as [|a xs IH]; intros d Hd; simpl.
  - by intros [= <-].
  - destruct (f a) as [v|e] eqn:Ea; simpl; [|done].
    apply IH. apply map_Forall_insert_2; [by apply Hf | done].
Qed.

Lemma visible_in_empty_or_None (x : option string) :
  in_empty_or_None x = negb (Spec.visible x).
Proof.
  destruct x as [s|]; [|done]. simpl.
  destruct s; [done|]. by rewrite bool_decide_eq_false_2.
Qed.

Lemma observation_base (env : Env) (rl_id : string) :
  max_speed (network (k env)) ≠ 0 →
  length (network (k env)) ≠ 0 →
  MultiAgentHighwayPOEnv.observation env rl_id = Ok (Spec.base_vector env rl_id).
Proof.
  intros Hs Hl.
  unfold MultiAgentHighwayPOEnv.observation, Spec.base_vector, Spec.lead_speed,
    Spec.lead_headway, Spec.follow_speed, Spec.follow_headway.
  rewrite !visible_in_empty_or_None.
  destruct (get_leader (vehicle (k env)) rl_id) as [l|] eqn:El;
    destruct (get_follower (vehicle (k env)) rl_id) as [f|] eqn:Ef;
    try destruct (Spec.visible (Some l)); try destruct (Spec.visible (Some f));
    simpl; rewrite !py_div_Ok by done; reflexivity.
Qed.

Lemma get_state_base_lookup (env : Env) (rl_id : string) :
  max_speed (network (k env)) ≠ 0 →
  length (network (k env)) ≠ 0 →
  rl_id ∈ get_rl_ids (vehicle (k env)) →
  ∃ obs, MultiAgentHighwayPOEnv.get_state env = Ok obs
         ∧ obs !! rl_id = Some (Spec.base_vector env rl_id).
Proof.
  intros Hs Hl Hin. unfold MultiAgentHighwayPOEnv.get_state.
  pose proof (observation_base env) as Hobs.
  destruct (for_update_spec (MultiAgentHighwayPOEnv.observation env) _
              (get_rl_ids (vehicle (k env))) ∅
              (λ x _, Hobs x Hs Hl)) as (m & Hm & Hlook).
  exists m. split; [done|].
  by rewrite Hlook, decide_True.
Qed.

(** Closed equations and inequalities between numbers of the model. *)
Ltac qc_eq := apply Qc_is_canon; reflexivity.
Ltac qc_cmp := by vm_compute.

(** A closed equation between values with decidable equality, by running the
    decision. *)
Ltac by_decision := apply (bool_decide_unpack _); by vm_compute.

(** C1: for an agent of the step, with positive normalising constants, the
    observation of the base class is [v/max_speed, (lead_speed - v)/max_speed,
    lead_headway/max_length, (v - follow_speed)/max_speed,
    follow_headway/max_length]; for an agent at speed 10, a leader at headway 5
    and speed 15, no follower, max_speed 30 and max_length 100 this is
    [10/30, 5/30, 5/100, 10/30, 1], within 1e-3 of
    [0.333, 0.1667, 0.05, 0.333, 1.0]. *)
Theorem get_state_base_vector :
  (∀ (env : Env) (rl_id : string),
     max_speed (network (k env)) ≠ 0 →
     length (network (k env)) ≠ 0 →
     rl_id ∈ get_rl_ids (vehicle (k env)) →
     ∃ obs, MultiAgentHighwayPOEnv.get_state env = Ok obs
            ∧ obs !! rl_id = Some (Spec.base_vector env rl_id))
  ∧
  (∀ (env : Env) (a b : string),
     a ∈ get_rl_ids (vehicle (k env)) →
     get_speed (vehicle (k env)) a = frac 10 1 →
     get_leader (vehicle (k env)) a = Some b →
     b ≠ "" →
     get_speed (vehicle (k env)) b = frac 15 1 →
     get_headway (vehicle (k env)) a = frac 5 1 →
     in_empty_or_None (get_follower (vehicle (k env)) a) = true →
     max_speed (network (k env)) = frac 30 1 →
     length (network (k env)) = frac 100 1 →
     ∃ obs o0 o1 o2 o3 o4,
       MultiAgentHighwayPOEnv.get_state env = Ok obs
       ∧ obs !! a = Some [o0; o1; o2; o3; o4]
       ∧ [o0; o1; o2; o3; o4]
         = [frac 10 1 / frac 30 1; frac 5 1 / frac 30 1;
            frac 5 1 / frac 100 1; frac 10 1 / frac 30 1; 1]
       ∧ Spec.within (frac 1 1000) o0 (frac 333 1000)
       ∧ Spec.within (frac 1 1000) o1 (frac 1667 10000)
       ∧ Spec.within (frac 1 1000) o2 (frac 5 100)
       ∧ Spec.within (frac 1 1000) o3 (frac 333 1000)
       ∧ Spec.within (frac 1 1000) o4 1).
Proof.
  split; [exact get_state_base_lookup|].
  intros env a b Hin Hv Hlead Hb Hvb Hh Hfol Hs Hl.
  destruct (get_state_base_lookup env a) as (obs & Hobs & Hlook); [| |done|].
  { rewrite Hs. qc_cmp. }
  { rewrite Hl. qc_cmp. }
  exists obs, (frac 10 1 / frac 30 1), (frac 5 1 / frac 30 1),
    (frac 5 1 / frac 100 1), (frac 10 1 / frac 30 1), 1.
  split; [done|]. split.
  - rewrite Hlook. f_equal.
    rewrite visible_in_empty_or_None in Hfol. apply negb_true_iff in Hfol.
    unfold Spec.base_vector, Spec.lead_speed, Spec.lead_headway,
      Spec.follow_speed, Spec.follow_headway.
    rewrite Hlead, Hv, Hs, Hl, Hh, Hvb.
    assert (Spec.visible (Some b) = true) as ->.
    { destruct b; [done|reflexivity]. }
    destruct (get_follower (vehicle (k env)) a) as [f|]; [rewrite Hfol|].
    all: repeat f_equal; qc_eq.
  - split; [done|]. unfold Spec.within. repeat split; qc_cmp.
Qed.

Lemma get_state_base_vector_witness :
  (∃ obs, MultiAgentHighwayPOEnv.get_state scenario = Ok obs
          ∧ obs !! "A" = Some (Spec.base_vector scenario "A"))
  ∧ ∃ obs o0 o1 o2 o3 o4,
      MultiAgentHighwayPOEnv.get_state scenario = Ok obs
      ∧ obs !! "A" = Some [o0; o1; o2; o3; o4]
      ∧ [o0; o1; o2; o3; o4]
        = [frac 10 1 / frac 30 1; frac 5 1 / frac 30 1;
           frac 5 1 / frac 100 1; frac 10 1 / frac 30 1; 1]
      ∧ Spec.within (frac 1 1000) o0 (frac 333 1000)
      ∧ Spec.within (frac 1 1000) o1 (frac 1667 10000)
      ∧ Spec.within (frac 1 1000) o2 (frac 5 100)
      ∧ Spec.within (frac 1 1000) o3 (frac 333 1000)
      ∧ Spec.within (frac 1 1000) o4 1.
Proof.
  split.
  - apply (proj1 get_state_base_vector scenario "A").
    + by vm_compute.
    + by vm_compute.
    + vm_compute. left.
  - apply (proj2 get_state_base_vector scenario "A" "B");
      try reflexivity; [left | discriminate].
Defined.

(** C2, as amended: for an agent whose leader id is the empty string or
    [None], with positive normalising constants, the second component of the
    observation is [(max_speed - v)/max_speed], that is [1 - v/max_speed], and
    the third is 1, whatever the other vehicles do. *)
Theorem no_leader_features (env : Env) (rl_id : string) :
  max_speed (network (k env)) ≠ 0 →
  length (network (k env)) ≠ 0 →
  rl_id ∈ get_rl_ids (vehicle (k env)) →
  in_empty_or_None (get_leader (vehicle (k env)) rl_id) = true →
  ∃ obs o,
    MultiAgentHighwayPOEnv.get_state env = Ok obs
    ∧ obs !! rl_id = Some o
    ∧ o !! 1%nat
      = Some ((max_speed (network (k env)) - get_speed (vehicle (k env)) rl_id)
              / max_speed (network (k env)))
    ∧ (max_speed (network (k env)) - get_speed (vehicle (k env)) rl_id)
        / max_speed (network (k env))
      = 1 - get_speed (vehicle (k env)) rl_id / max_speed (network (k env))
    ∧ o !! 2%nat = Some 1.
Proof.
  intros Hs Hl Hin Hlead.
  destruct (get_state_base_lookup env rl_id) as (obs & Hobs & Hlook); [done..|].
  exists obs, (Spec.base_vector env rl_id). split; [done|]. split; [done|].
  rewrite visible_in_empty_or_None in Hlead. apply negb_true_iff in Hlead.
  unfold Spec.base_vector, Spec.lead_speed, Spec.lead_headway.
  destruct (get_leader (vehicle (k env)) rl_id) as [l|]; rewrite ?Hlead.
  all: split; [reflexivity|].
  all: split; [by field|].
  all: cbn; by rewrite Qcdiv_self.
Qed.

Lemma no_leader_features_witness :
  ∃ obs o,
    MultiAgentHighwayPOEnv.get_state lone_agent = Ok obs
    ∧ obs !! "A" = Some o
    ∧ o !! 1%nat = Some ((frac 30 1 - frac 10 1) / frac 30 1)
    ∧ (frac 30 1 - frac 10 1) / frac 30 1 = 1 - frac 10 1 / frac 30 1
    ∧ o !! 2%nat = Some 1.
Proof.
  apply (no_leader_features lone_agent "A").
  - by vm_compute.
  - by vm_compute.
  - vm_compute. left.
  - reflexivity.
Defined.

(** C2 as stated fails: agent A alone on the road at speed 10, with
    max_speed 30, has no leader, and the second component of its observation
    is 2/3, not 0. *)
Lemma no_leader_lead_speed_feature_nonzero :
  in_empty_or_None (get_leader (vehicle (k lone_agent)) "A") = true
  ∧ ∃ obs o x,
      MultiAgentHighwayPOEnv.get_state lone_agent = Ok obs
      ∧ obs !! "A" = Some o
      ∧ o !! 1%nat = Some x
      ∧ x ≠ 0.
Proof.
  split; [reflexivity|].
  destruct (get_state_base_lookup lone_agent "A") as (obs & Hobs & Hlook).
  - by vm_compute.
  - by vm_compute.
  - vm_compute. left.
  - exists obs, (Spec.base_vector lone_agent "A"),
      ((frac 30 1 - frac 10 1) / frac 30 1).
    split; [done|]. split; [done|]. split; [reflexivity|]. by vm_compute.
Qed.

(** ** The local-neighbourhood reward *)

Lemma avgspeed_agent_on_failure (env : Env) (kwargs : gmap string bool)
    (rl_id : string) :
  kwargs !! "fail" = Some true →
  MultiAgentHighwayPOEnvLocalReward._compute_avgspeed_agent env kwargs rl_id
  = Ok 0.
Proof.
  intros Hf.
  unfold MultiAgentHighwayPOEnvLocalReward._compute_avgspeed_agent,
    kwargs_fail, getitem.
  by rewrite Hf.
Qed.

(** The vehicles of the agent's edge are compared with the position that the
    kernel answers for the edge identifier: when that lies below the position
    of every vehicle of the edge, none is kept, wherever the agent is. *)
Lemma edge_neighbours_empty (env : Env) (rl_id : string) :
  let veh := vehicle (k env) in
  let edge := get_edge veh rl_id in
  (∀ v, v ∈ get_ids_by_edge veh edge →
        get_position veh edge < get_position veh v) →
  filter (λ v, get_lane veh v = get_lane veh rl_id
               ∧ get_position veh v ≤ get_position veh edge)
         (get_ids_by_edge veh edge) = [].
Proof.
  intros veh edge Hpos.
  induction (get_ids_by_edge veh edge) as [|a l IH]; [done|].
  rewrite filter_cons_False.
  - apply IH. intros v Hv. apply Hpos. by right.
  - intros [_ Hle]. eapply Qclt_not_le; [|exact Hle]. apply Hpos. left.
Qed.

(** C3: the code compares the positions of the vehicles of the agent's edge
    with [get_position(edge)], the position of the edge identifier, not with
    the position of the agent.  With rl_0 at position 50 and speed 20 and
    human_0 behind it at position 20 and speed 10 under a speed limit of 30,
    the mean speed at or behind the agent is 15 and the reward the specification gives
    is 1/2; the code collects no vehicle and returns 0. *)
Theorem local_reward_compares_with_edge_position :
  MultiAgentHighwayPOEnvLocalReward.compute_reward
    platoon (Some []) {[ "fail" := false ]}
  = Ok {[ "rl_0" := 0 ]}
  ∧ Spec.local_reward platoon {[ "fail" := false ]} "rl_0" = Ok (frac 1 2).
Proof. split; by_decision. Qed.

(** ** The seven-feature observation *)

Lemma clipped_features_bounded (x : Qc) : -1 ≤ np_clip x (-1) 1 ≤ 1.
Proof. apply np_clip_bounds. qc_cmp. Qed.

(** C5: the observation space of the merge-aware encoder is the box
    [-1, 1]^7, and the encoder clips its two added features only.  Agent rl_0
    at speed 33 on a network with max_speed 30 gets 11/10 as first
    component. *)
Theorem merge_info_first_feature_exceeds_box :
  get_state POEnvDistanceMergeInfo merge
  = Ok {[ "rl_0" := [frac 11 10; - frac 13 30; frac 3 20; frac 11 10; 1;
                     - frac 1 6; frac 2 5] ]}
  ∧ 1 < frac 11 10.
Proof. split; [by_decision | qc_cmp]. Qed.

Lemma merge_info_added_features_bounded (env : Env) (obs : gmap string (list Qc))
    (rl_id : string) (o : list Qc) :
  get_state POEnvDistanceMergeInfo env = Ok obs →
  obs !! rl_id = Some o →
  ∃ o0 o1 o2 o3 o4 o5 o6,
    o = [o0; o1; o2; o3; o4; o5; o6] ∧ -1 ≤ o5 ≤ 1 ∧ -1 ≤ o6 ≤ 1.
Proof.
  simpl. unfold MultiAgentHighwayPOEnvDistanceMergeInfo.get_state.
  destruct (MultiAgentHighwayPOEnvDistanceMergeInfo.merge_distance env)
    as [md|e]; simpl; [|done].
  intros Hobs Hlook. revert rl_id o Hlook.
  eapply (for_update_Forall
            (λ _ o, ∃ o0 o1 o2 o3 o4 o5 o6,
               o = [o0; o1; o2; o3; o4; o5; o6] ∧ -1 ≤ o5 ≤ 1 ∧ -1 ≤ o6 ≤ 1));
    [|apply map_Forall_empty|exact Hobs].
  intros x v. unfold MultiAgentHighwayPOEnvDistanceMergeInfo.observation.
  destruct (in_empty_or_None (get_leader (vehicle (k env)) x));
    destruct (in_empty_or_None (get_follower (vehicle (k env)) x));
    intros H; inv_bind H; injection H as <-; do 7 eexists;
    (split; [reflexivity|]); split; apply clipped_features_bounded.
Qed.

(** ** Rewards and the failure flag *)

Lemma reward_on_failure (env : Env) (kwargs : gmap string bool) (rl_id : string) :
  evaluate (env_params env) = false →
  kwargs !! "fail" = Some true →
  MultiAgentHighwayPOEnv.reward env kwargs rl_id = Ok 0.
Proof.
  intros He Hf. unfold MultiAgentHighwayPOEnv.reward, kwargs_fail, getitem.
  by rewrite He, Hf.
Qed.

Lemma reward_in_training (env : Env) (kwargs : gmap string bool) (rl_id : string) :
  evaluate (env_params env) = false →
  kwargs !! "fail" = Some false →
  ∃ cost2,
    MultiAgentHighwayPOEnv.reward env kwargs rl_id
    = Ok (py_max (1 * desired_velocity env false + 0 * cost2) 0).
Proof.
  intros He Hf. unfold MultiAgentHighwayPOEnv.reward, kwargs_fail, getitem.
  rewrite He, Hf. simpl.
  destruct (negb (in_empty_or_None (get_leader (vehicle (k env)) rl_id))
            && bool_decide (0 < get_speed (vehicle (k env)) rl_id)) eqn:Eb.
  - apply andb_true_iff in Eb as [_ Hv%bool_decide_eq_true_1].
    rewrite py_div_Ok; [simpl|].
    + by eexists.
    + intros H0. by apply Qclt_not_eq in Hv.
  - simpl. by eexists.
Qed.

(** C4: with evaluation mode off and the failure flag set, the base class
    rewards every agent with exactly 0; the negative classes reward every
    agent with exactly -1/10 whatever the keyword arguments; the collaborative
    classes return the same result for any two sets of keyword arguments. *)
Theorem rewards_under_failure (env : Env) (acts : list (string * list Qc)) :
  (∀ kwargs,
     evaluate (env_params env) = false →
     kwargs !! "fail" = Some true →
     compute_reward POEnv env (Some acts) kwargs
     = Ok (gset_to_gmap 0 (list_to_set (get_rl_ids (vehicle (k env))))))
  ∧ (∀ c kwargs,
       c = POEnvNegative ∨ c = POEnvDistanceMergeInfoNegative →
       compute_reward c env (Some acts) kwargs
       = Ok (gset_to_gmap (- frac 1 10)
               (list_to_set (get_rl_ids (vehicle (k env))))))
  ∧ (∀ c rl_actions kwargs kwargs',
       c = POEnvCollaborate ∨ c = POEnvDistanceMergeInfoCollaborate →
       compute_reward c env rl_actions kwargs
       = compute_reward c env rl_actions kwargs').
Proof.
  split; [|split].
  - intros kwargs He Hf. simpl. apply for_update_const.
    intros x _. by apply reward_on_failure.
  - intros c kwargs [-> | ->]; simpl; by apply for_update_const.
  - by intros c rl_actions kwargs kwargs' [-> | ->].
Qed.

Lemma rewards_under_failure_witness :
  compute_reward POEnv scenario (Some []) {[ "fail" := true ]}
  = Ok (gset_to_gmap 0 (list_to_set ["A"]))
  ∧ compute_reward POEnvNegative scenario (Some []) {[ "fail" := true ]}
    = Ok (gset_to_gmap (- frac 1 10) (list_to_set ["A"]))
  ∧ compute_reward POEnvCollaborate scenario (Some []) {[ "fail" := true ]}
    = compute_reward POEnvCollaborate scenario (Some []) {[ "fail" := false ]}.
Proof.
  destruct (rewards_under_failure scenario []) as (Hbase & Hneg & Hcol).
  split; [|split].
  - apply (Hbase {[ "fail" := true ]}); reflexivity.
  - apply (Hneg POEnvNegative). by left.
  - apply (Hcol POEnvCollaborate). by left.
Defined.

(** C6: in the base class, with evaluation mode off and the failure flag
    false, [compute_reward] returns a reward for exactly the agents of the
    step and every reward is at least 0. *)
Theorem base_reward_nonnegative (env : Env) (acts : list (string * list Qc))
    (kwargs : gmap string bool) :
  evaluate (env_params env) = false →
  kwargs !! "fail" = Some false →
  ∃ rewards,
    compute_reward POEnv env (Some acts) kwargs = Ok rewards
    ∧ dom rewards = list_to_set (get_rl_ids (vehicle (k env)))
    ∧ ∀ rl_id r, rewards !! rl_id = Some r → 0 ≤ r.
Proof.
  intros He Hf. simpl.
  destruct (for_update_Ok (MultiAgentHighwayPOEnv.reward env kwargs)
              (get_rl_ids (vehicle (k env))) ∅) as [m Hm].
  { intros x _. destruct (reward_in_training env kwargs x He Hf) as [c2 ->].
    by eexists. }
  exists m. split; [done|]. split.
  - apply for_update_dom in Hm. rewrite Hm. set_solver.
  - eapply (for_update_Forall (λ _ r, 0 ≤ r)); [|apply map_Forall_empty|exact Hm].
    intros x v. destruct (reward_in_training env kwargs x He Hf) as [c2 ->].
    intros [= <-]. apply py_max_ge_r.
Qed.

Lemma base_reward_nonnegative_witness :
  ∃ rewards,
    compute_reward POEnv scenario (Some [("A", [frac 1 2])]) {[ "fail" := false ]}
    = Ok rewards
    ∧ dom rewards = list_to_set ["A"]
    ∧ ∀ rl_id r, rewards !! rl_id = Some r → 0 ≤ r.
Proof.
  apply (base_reward_nonnegative scenario [("A", [frac 1 2])] {[ "fail" := false ]});
    reflexivity.
Defined.

(** ** Warm-up steps and steps without agents *)

(** C7, as amended: in every class [compute_reward] with [None] for the
    actions returns the empty dict; with no agent in the step, [get_state]
    returns the empty dict in the classes that use the five-feature encoder,
    and in the merge-aware classes when the table of edge starts has an entry
    [bottom] and either no vehicle is on [bottom] or the length of [bottom]
    is not zero. *)
Theorem warm_up_and_empty_roster (c : EnvClass) (env : Env)
    (kwargs : gmap string bool) :
  compute_reward c env None kwargs = Ok ∅
  ∧ (get_rl_ids (vehicle (k env)) = [] →
     (merge_aware c = true →
      is_Some (total_edgestarts_dict (network (k env)) !! "bottom")
      ∧ (get_ids_by_edge (vehicle (k env)) "bottom" = []
         ∨ edge_length (network (k env)) "bottom" ≠ 0)) →
     get_state c env = Ok ∅).
Proof.
  split; [by destruct c|].
  intros Hids Hmerge.
  assert (MultiAgentHighwayPOEnv.get_state env = Ok ∅) as Hbase.
  { unfold MultiAgentHighwayPOEnv.get_state. by rewrite Hids. }
  assert (merge_aware c = true →
          MultiAgentHighwayPOEnvDistanceMergeInfo.get_state env = Ok ∅) as Hext.
  { intros Hc. destruct (Hmerge Hc) as [[start Hstart] Hbottom].
    unfold MultiAgentHighwayPOEnvDistanceMergeInfo.get_state,
      MultiAgentHighwayPOEnvDistanceMergeInfo.merge_distance, getitem.
    rewrite Hstart, Hids. simpl.
    destruct Hbottom as [-> | Hlen]; [done|].
    destruct (get_position (vehicle (k env))
                <$> get_ids_by_edge (vehicle (k env)) "bottom"); [done|].
    by rewrite py_div_Ok. }
  destruct c; simpl; auto.
Qed.

Lemma warm_up_and_empty_roster_witness :
  compute_reward POEnvDistanceMergeInfo
    (make_env no_vehicles merge_network) None ∅ = Ok ∅
  ∧ get_state POEnvDistanceMergeInfo (make_env no_vehicles merge_network)
    = Ok ∅.
Proof.
  destruct (warm_up_and_empty_roster POEnvDistanceMergeInfo
              (make_env no_vehicles merge_network) ∅) as [Hr Hs].
  split; [exact Hr|]. apply Hs; [reflexivity|].
  intros _. split; [eexists; reflexivity | by left].
Defined.

(** C7 as stated fails: on the one-edge highway, whose table of edge starts
    has no entry [bottom], [get_state] of the merge-aware class raises
    [KeyError] although no agent is present. *)
Lemma merge_info_get_state_raises_without_agents :
  get_rl_ids (vehicle (k empty_highway)) = []
  ∧ get_state POEnvDistanceMergeInfo empty_highway = Raise (KeyError "bottom").
Proof. split; reflexivity. Qed.

(** ** The keys of the returned dicts *)

(** C8: in every class, the dict that [get_state] returns, and the dict that
    [compute_reward] returns for actions other than [None], has exactly the
    ids of [get_rl_ids] as its keys. *)
Theorem keyed_by_rl_ids (c : EnvClass) (env : Env) :
  (∀ obs, get_state c env = Ok obs →
          dom obs = list_to_set (get_rl_ids (vehicle (k env))))
  ∧ (∀ acts kwargs rewards,
       compute_reward c env (Some acts) kwargs = Ok rewards →
       dom rewards = list_to_set (get_rl_ids (vehicle (k env)))).
Proof.
  split.
  - intros obs H.
    assert (∃ f, for_update f (get_rl_ids (vehicle (k env))) ∅ = Ok obs)
      as [f Hf].
    { destruct c; simpl in H;
        try (by eexists);
        unfold MultiAgentHighwayPOEnvDistanceMergeInfo.get_state in H;
        apply bind_Ok_inv in H as (md & _ & H); by eexists. }
    apply for_update_dom in Hf. rewrite Hf. set_solver.
  - intros acts kwargs rewards H.
    assert (∃ f, for_update f (get_rl_ids (vehicle (k env))) ∅ = Ok rewards)
      as [f Hf].
    { destruct c; simpl in H;
        try (by eexists);
        apply bind_Ok_inv in H as (r2 & _ & H); by eexists. }
    apply for_update_dom in Hf. rewrite Hf. set_solver.
Qed.

Lemma keyed_by_rl_ids_witness :
  dom ({[ "rl_0" := [frac 11 10; - frac 13 30; frac 3 20; frac 11 10; 1;
                     - frac 1 6; frac 2 5] ]} : gmap string (list Qc))
  = list_to_set ["rl_0"]
  ∧ dom ({[ "rl_0" := 0 ]} : gmap string Qc) = list_to_set ["rl_0"].
Proof.
  split.
  - apply (proj1 (keyed_by_rl_ids POEnvDistanceMergeInfo merge)). by_decision.
  - apply (proj2 (keyed_by_rl_ids POEnvLocalReward merge)
             [("rl_0", [1])] {[ "fail" := false ]}).
    by_decision.
Defined.

(** ** The constructor *)

Lemma check_params_raises (keys : list string) (params : gmap string Qc) :
  (∃ p, p ∈ keys ∧ params !! p = None) →
  ∃ q, q ∈ keys ∧ params !! q = None
       ∧ MultiAgentHighwayPOEnv.check_params keys params
         = Raise (KeyError (MultiAgentHighwayPOEnv.not_supplied q)).
Proof.
  induction keys as [|a keys IH]; intros (p & Hin & Hp).
  - by apply elem_of_nil in Hin.
  - simpl. destruct (bool_decide (params !! a = None)) eqn:Ea.
    + apply bool_decide_eq_true_1 in Ea. exists a.
      split; [left|]. by split.
    + apply bool_decide_eq_false_1 in Ea.
      apply elem_of_cons in Hin as [-> | Hin]; [done|].
      destruct IH as (q & Hq & Hnone & Hraise); [by exists p|].
      exists q. split; [by right|]. by split.
Qed.

Lemma check_params_Ok (keys : list string) (params : gmap string Qc) :
  (∀ p, p ∈ keys → is_Some (params !! p)) →
  MultiAgentHighwayPOEnv.check_params keys params = Ok ().
Proof.
  induction keys as [|a keys IH]; intros Hall; simpl; [done|].
  destruct (Hall a) as [v Hv]; [left|].
  rewrite bool_decide_eq_false_2 by (by rewrite Hv).
  apply IH. intros p Hp. apply Hall. by right.
Qed.

(** C9: when one of [max_accel], [max_decel], [target_velocity] is not among
    the additional parameters, [__init__] raises [KeyError] for a missing key
    before the constructor of the parent class is entered, whatever that
    constructor would do; when all three are supplied the check of
    [__init__] returns and construction is that of the parent class. *)
Theorem init_requires_params {SimParams NetworkSpec : Type}
    (super_init : EnvParams → SimParams → NetworkSpec → string → result Env)
    (env_params : EnvParams) (sim_params : SimParams) (net : NetworkSpec)
    (simulator : string) :
  ((∃ p, p ∈ ["max_accel"; "max_decel"; "target_velocity"]
         ∧ additional_params env_params !! p = None) →
   ∃ q, q ∈ ["max_accel"; "max_decel"; "target_velocity"]
        ∧ additional_params env_params !! q = None
        ∧ MultiAgentHighwayPOEnv.__init__
            super_init env_params sim_params net simulator
          = Raise (KeyError (MultiAgentHighwayPOEnv.not_supplied q)))
  ∧ ((∀ p, p ∈ ["max_accel"; "max_decel"; "target_velocity"] →
           is_Some (additional_params env_params !! p)) →
     MultiAgentHighwayPOEnv.check_params
       (ADDITIONAL_ENV_PARAMS.*1) (additional_params env_params) = Ok ()
     ∧ MultiAgentHighwayPOEnv.__init__
         super_init env_params sim_params net simulator
       = super_init env_params sim_params net simulator).
Proof.
  unfold MultiAgentHighwayPOEnv.__init__.
  change (ADDITIONAL_ENV_PARAMS.*1)
    with ["max_accel"; "max_decel"; "target_velocity"].
  split.
  - intros Hmiss.
    destruct (check_params_raises _ _ Hmiss) as (q & Hq & Hnone & ->).
    by exists q.
  - intros Hall. by rewrite (check_params_Ok _ _ Hall).
Qed.

Lemma init_requires_params_witness :
  (∃ q, q ∈ ["max_accel"; "max_decel"; "target_velocity"]
        ∧ additional_params incomplete_params !! q = None
        ∧ MultiAgentHighwayPOEnv.__init__
            (λ _ _ _ _, Ok scenario) incomplete_params () () "traci"
          = Raise (KeyError (MultiAgentHighwayPOEnv.not_supplied q)))
  ∧ MultiAgentHighwayPOEnv.__init__
      (λ _ _ _ _, Ok scenario) training_params () () "traci"
    = Ok scenario.
Proof.
  split.
  - apply (proj1 (init_requires_params (λ _ _ _ _, Ok scenario)
                    incomplete_params () () "traci")).
    exists "target_velocity". split; [|reflexivity].
    right. right. left.
  - apply (proj2 (init_requires_params (λ _ _ _ _, Ok scenario)
                    training_params () () "traci")).
    intros p Hp.
    repeat (apply elem_of_cons in Hp as [-> | Hp]; [by eexists|]).
    by apply elem_of_nil in Hp.
Defined.

(** ** The action dispatcher *)

Lemma apply_items_sends (items : list (string * list Qc)) (sent : list Command) :
  Forall (λ item, item.2 ≠ []) items →
  MultiAgentHighwayPOEnv.apply_items items sent
  = (Ok (),
     sent ++ ((λ item, apply_acceleration item.1 (default 0 (item.2 !! 0%nat)))
                <$> items)).
Proof.
  intros Hall. revert sent.
  induction Hall as [|[rl_id actions] items Hne _ IH]; intros sent; simpl.
  - by rewrite app_nil_r.
  - destruct actions as [|accel actions]; [done|]. simpl.
    rewrite IH. by rewrite <- app_assoc.
Qed.

(** C10: an empty dict of actions sends no command to the kernel, exactly as
    [None] does: the dispatcher tests the truth of its argument. *)
Theorem empty_actions_send_nothing (sent : list Command) :
  MultiAgentHighwayPOEnv._apply_rl_actions (Some []) sent = (Ok (), sent)
  ∧ MultiAgentHighwayPOEnv._apply_rl_actions None sent = (Ok (), sent)
  ∧ MultiAgentHighwayPOEnv.truth (Some []) = false.
Proof. done. Qed.

(** ** When the methods return

    Conditions under which each method returns a dict rather than raising. *)

Lemma Qc_of_nat_nonzero (n : nat) : n ≠ 0%nat → Qc_of_Z (Z.of_nat n) ≠ 0.
Proof.
  intros Hn H. apply (f_equal this) in H. simpl in H.
  injection H as H. lia.
Qed.

(** The backward traversal returns when the junctions upstream are ranked:
    every step to a predecessor that is a junction lowers the rank, and the
    depth allowed exceeds the rank of the starting edge. *)
Lemma backward_pass_returns (env : Env) (junctions : gset string)
    (rank : string → Z → nat) :
  (∀ e l e' l',
     (e', l') ∈ prev_edge (network (k env)) e l →
     e' ∈ junctions →
     (rank e' l' < rank e l)%nat) →
  ∀ depth e l,
    (rank e l < depth)%nat →
    ∃ veh,
      MultiAgentHighwayPOEnvLocalReward._veh_edge_lane_backward_pass
        depth env e l junctions = Ok veh.
Proof.
  intros Hrank depth. induction depth as [|d IH]; intros e l Hlt; [lia|].
  simpl.
  match goal with |- ∃ veh, foldl ?f _ _ = _ => set (step := f) end.
  assert (∀ ps acc,
            (∀ e' l', (e', l') ∈ ps → e' ∈ junctions → (rank e' l' < d)%nat) →
            ∃ veh, foldl step (Ok acc) ps = Ok veh) as Hfold.
  { induction ps as [|[pe pl] ps IHps]; intros acc Hps; simpl; [by eexists|].
    destruct (decide (pe ∈ junctions)) as [Hj|Hj].
    - rewrite bool_decide_eq_true_2 by done.
      destruct (IH pe pl) as [up ->].
      { apply Hps; [left | done]. }
      simpl. apply IHps. intros e' l' Hin. apply Hps. by right.
    - rewrite bool_decide_eq_false_2 by done.
      simpl. apply IHps. intros e' l' Hin. apply Hps. by right. }
  apply Hfold. intros e' l' Hin Hj.
  specialize (Hrank _ _ _ _ Hin Hj). lia.
Qed.

Lemma avgspeed_agent_returns (env : Env) (kwargs : gmap string bool)
    (rl_id : string) (rank : string → Z → nat) :
  is_Some (kwargs !! "fail") →
  (∀ e l e' l',
     (e', l') ∈ prev_edge (network (k env)) e l →
     e' ∈ (list_to_set (get_junction_list (network (k env))) : gset string) →
     (rank e' l' < rank e l)%nat) →
  (rank (get_edge (vehicle (k env)) rl_id) (get_lane (vehicle (k env)) rl_id)
   < recursion_limit env)%nat →
  ∃ r, MultiAgentHighwayPOEnvLocalReward._compute_avgspeed_agent
         env kwargs rl_id = Ok r.
Proof.
  intros [fail Hfail] Hrank Hdepth.
  unfold MultiAgentHighwayPOEnvLocalReward._compute_avgspeed_agent,
    kwargs_fail, getitem.
  rewrite Hfail. simpl. destruct fail; [by eexists|].
  destruct (backward_pass_returns env _ rank Hrank _ _ _ Hdepth) as [back ->].
  simpl. case_bool_decide as Hlen; [by eexists|].
  destruct (MultiAgentHighwayPOEnvLocalReward.any_below _ _); [by eexists|].
  rewrite py_div_Ok; [by eexists|].
  apply Qc_of_nat_nonzero. by rewrite length_fmap.
Qed.

Lemma get_state_returns (c : EnvClass) (env : Env) :
  max_speed (network (k env)) ≠ 0 →
  length (network (k env)) ≠ 0 →
  (merge_aware c = true →
   is_Some (total_edgestarts_dict (network (k env)) !! "bottom")
   ∧ (get_ids_by_edge (vehicle (k env)) "bottom" = []
      ∨ edge_length (network (k env)) "bottom" ≠ 0)
   ∧ ∃ center_x,
       total_edgestarts_dict (network (k env)) !! "center" = Some center_x
       ∧ center_x ≠ 0) →
  ∃ obs, get_state c env = Ok obs.
Proof.
  intros Hs Hl Hmerge.
  assert (∃ obs, MultiAgentHighwayPOEnv.get_state env = Ok obs) as Hbase.
  { apply for_update_Ok. intros x _. rewrite observation_base by done.
    by eexists. }
  assert (merge_aware c = true →
          ∃ obs, MultiAgentHighwayPOEnvDistanceMergeInfo.get_state env = Ok obs)
    as Hext.
  { intros Hc.
    destruct (Hmerge Hc) as ([start Hstart] & Hbottom & cx & Hcx & Hcx0).
    unfold MultiAgentHighwayPOEnvDistanceMergeInfo.get_state.
    assert (∃ md, MultiAgentHighwayPOEnvDistanceMergeInfo.merge_distance env
                  = Ok md) as [md ->].
    { unfold MultiAgentHighwayPOEnvDistanceMergeInfo.merge_distance, getitem.
      rewrite Hstart. simpl.
      destruct Hbottom as [-> | Hlen]; [by eexists|].
      destruct (get_position (vehicle (k env))
                  <$> get_ids_by_edge (vehicle (k env)) "bottom");
        [by eexists|].
      rewrite py_div_Ok by done. by eexists. }
    simpl. apply for_update_Ok. intros x _.
    unfold MultiAgentHighwayPOEnvDistanceMergeInfo.observation, getitem.
    rewrite Hcx. simpl.
    destruct (in_empty_or_None (get_leader (vehicle (k env)) x));
      destruct (in_empty_or_None (get_follower (vehicle (k env)) x));
      case_bool_decide; rewrite ?py_div_Ok by done; simpl;
      rewrite ?py_div_Ok by done; by eexists. }
  destruct c; simpl; auto.
Qed.

Lemma compute_reward_returns (c : EnvClass) (env : Env)
    (acts : list (string * list Qc)) (kwargs : gmap string bool) :
  is_Some (kwargs !! "fail") →
  (c = POEnvLocalReward →
   ∃ rank : string → Z → nat,
     (∀ e l e' l',
        (e', l') ∈ prev_edge (network (k env)) e l →
        e' ∈ (list_to_set (get_junction_list (network (k env))) : gset string) →
        (rank e' l' < rank e l)%nat)
     ∧ ∀ rl_id,
         rl_id ∈ get_rl_ids (vehicle (k env)) →
         (rank (get_edge (vehicle (k env)) rl_id)
               (get_lane (vehicle (k env)) rl_id)
          < recursion_limit env)%nat
         ∧ speed_limit (network (k env)) (get_edge (vehicle (k env)) rl_id)
           ≠ 0) →
  ∃ rewards, compute_reward c env (Some acts) kwargs = Ok rewards.
Proof.
  intros Hfail Hlocal.
  assert (∃ rewards,
            MultiAgentHighwayPOEnv.compute_reward env (Some acts) kwargs
            = Ok rewards) as Hbase.
  { apply for_update_Ok. intros x _.
    destruct (evaluate (env_params env)) eqn:He.
    - unfold MultiAgentHighwayPOEnv.reward. rewrite He. by eexists.
    - destruct Hfail as [[] Hf].
      + rewrite reward_on_failure by done. by eexists.
      + destruct (reward_in_training env kwargs x He Hf) as [c2 ->].
        by eexists. }
  destruct c; simpl; try done.
  - destruct (Hlocal eq_refl) as (rank & Hrank & Hids).
    apply for_update_Ok. intros x Hx. destruct (Hids x Hx) as [Hdepth Hlimit].
    unfold MultiAgentHighwayPOEnvLocalReward._compute_avgspeednormalized_agent.
    destruct (avgspeed_agent_returns env kwargs x rank Hfail Hrank Hdepth)
      as [r ->].
    simpl. rewrite py_div_Ok by done. by eexists.
  - apply for_update_Ok. by eexists.
  - apply for_update_Ok. by eexists.
  - apply for_update_Ok. by eexists.
  - apply for_update_Ok. by eexists.
Qed.

(** * Further properties of the environments *)

Lemma for_update_raises {V} (f : string → result V) (x : string)
    (xs : list string) (d : gmap string V) (e : exn) :
  f x = Raise e → for_update f (x :: xs) d = Raise e.
Proof. intros Hx. simpl. by rewrite Hx. Qed.

(** ** Rewards of the base class *)

(** X1: In evaluation mode the reward of every agent is its own speed, whatever
    the keyword arguments are, also when [fail] is not among them. *)
Theorem evaluation_reward_is_speed (env : Env) (acts : list (string * list Qc))
    (kwargs : gmap string bool) :
  evaluate (env_params env) = true →
  ∃ rewards,
    compute_reward POEnv env (Some acts) kwargs = Ok rewards
    ∧ ∀ rl_id,
        rewards !! rl_id
        = if decide (rl_id ∈ get_rl_ids (vehicle (k env)))
          then Some (get_speed (vehicle (k env)) rl_id)
          else None.
Proof.
  intros He. simpl.
  destruct (for_update_spec (MultiAgentHighwayPOEnv.reward env kwargs)
              (get_speed (vehicle (k env)))
              (get_rl_ids (vehicle (k env))) ∅) as (m & Hm & Hlook).
  { intros x _. unfold MultiAgentHighwayPOEnv.reward. by rewrite He. }
  exists m. split; [done|]. intros rl_id. rewrite Hlook.
  by destruct (decide _).
Qed.

Lemma evaluation_reward_is_speed_witness :
  ∃ rewards,
    compute_reward POEnv evaluation (Some []) ∅ = Ok rewards
    ∧ ∀ rl_id,
        rewards !! rl_id
        = if decide (rl_id ∈ get_rl_ids (vehicle (k evaluation)))
          then Some (get_speed (vehicle (k evaluation)) rl_id)
          else None.
Proof. apply (evaluation_reward_is_speed evaluation [] ∅). reflexivity. Defined.

(** X2: Outside evaluation mode and without failure the headway term has weight
    zero: every agent gets [max(desired_velocity, 0)], whatever its speed, its
    leader and its headway are. *)
Theorem training_reward_is_desired_velocity (env : Env)
    (acts : list (string * list Qc)) (kwargs : gmap string bool) :
  evaluate (env_params env) = false →
  kwargs !! "fail" = Some false →
  compute_reward POEnv env (Some acts) kwargs
  = Ok (gset_to_gmap (py_max (desired_velocity env false) 0)
          (list_to_set (get_rl_ids (vehicle (k env))))).
Proof.
  intros He Hf. simpl. apply for_update_const. intros x _.
  destruct (reward_in_training env kwargs x He Hf) as [c2 ->].
  do 2 f_equal. ring.
Qed.

Lemma training_reward_is_desired_velocity_witness :
  compute_reward POEnv merge (Some []) {[ "fail" := false ]}
  = Ok (gset_to_gmap (py_max (desired_velocity merge false) 0)
          (list_to_set (get_rl_ids (vehicle (k merge))))).
Proof.
  apply (training_reward_is_desired_velocity merge [] {[ "fail" := false ]});
    reflexivity.
Defined.

(** X3: Outside evaluation mode the base reward and the local reward read
    [kwargs['fail']] for the first agent: without that key they raise
    [KeyError] as soon as there is an agent, and return the empty dict when
    there is none. *)
Theorem reward_needs_fail_key (c : EnvClass) (env : Env)
    (acts : list (string * list Qc)) (kwargs : gmap string bool) :
  c = POEnv ∨ c = POEnvDistanceMergeInfo ∨ c = POEnvLocalReward →
  evaluate (env_params env) = false →
  kwargs !! "fail" = None →
  compute_reward c env (Some acts) kwargs
  = match get_rl_ids (vehicle (k env)) with
    | [] => Ok ∅
    | _ :: _ => Raise (KeyError "fail")
    end.
Proof.
  intros Hc He Hf.
  destruct (get_rl_ids (vehicle (k env))) as [|x xs] eqn:Hids.
  - destruct Hc as [-> | [-> | ->]]; simpl; by rewrite Hids.
  - destruct Hc as [-> | [-> | ->]]; simpl; rewrite Hids;
      apply for_update_raises.
    + unfold MultiAgentHighwayPOEnv.reward, kwargs_fail, getitem.
      by rewrite He, Hf.
    + unfold MultiAgentHighwayPOEnv.reward, kwargs_fail, getitem.
      by rewrite He, Hf.
    + unfold MultiAgentHighwayPOEnvLocalReward._compute_avgspeednormalized_agent,
        MultiAgentHighwayPOEnvLocalReward._compute_avgspeed_agent,
        kwargs_fail, getitem.
      by rewrite Hf.
Qed.

Lemma reward_needs_fail_key_witness :
  compute_reward POEnvLocalReward scenario (Some []) ∅
  = Raise (KeyError "fail").
Proof.
  apply (reward_needs_fail_key POEnvLocalReward scenario [] ∅);
    [by right; right | reflexivity | reflexivity].
Defined.

(** ** The shared reward *)

(** X4: The collaborative classes give every agent the same reward,
    [average_velocity / 60 - 1/2], for any keyword arguments; they never
    raise. *)
Theorem collaborative_reward_formula (c : EnvClass) (env : Env)
    (acts : list (string * list Qc)) (kwargs : gmap string bool) :
  c = POEnvCollaborate ∨ c = POEnvDistanceMergeInfoCollaborate →
  compute_reward c env (Some acts) kwargs
  = Ok (gset_to_gmap (average_velocity env / frac 60 1 - frac 1 2)
          (list_to_set (get_rl_ids (vehicle (k env))))).
Proof.
  assert (frac 30 1 ≠ 0) as H30 by qc_cmp.
  assert (∀ a, -1 * frac 1 2 + a / frac 30 1 * frac 1 2
               = a / frac 60 1 - frac 1 2) as Heq.
  { intros a. unfold Qcdiv, Qcminus.
    replace (/ frac 60 1) with (/ frac 30 1 * frac 1 2) by qc_eq.
    replace (-1 * frac 1 2) with (- frac 1 2) by qc_eq. ring. }
  intros [-> | ->]; simpl; rewrite Heq; by apply for_update_const.
Qed.

Lemma collaborative_reward_formula_witness :
  compute_reward POEnvCollaborate scenario (Some []) ∅
  = Ok (gset_to_gmap (average_velocity scenario / frac 60 1 - frac 1 2)
          (list_to_set (get_rl_ids (vehicle (k scenario))))).
Proof.
  apply (collaborative_reward_formula POEnvCollaborate scenario [] ∅).
  by left.
Defined.

(** ** Observations *)

(** X5: For an agent whose follower id is the empty string or [None], the fourth
    component of the observation is [v/max_speed] and the fifth is 1. *)
Theorem no_follower_features (env : Env) (rl_id : string) :
  max_speed (network (k env)) ≠ 0 →
  length (network (k env)) ≠ 0 →
  rl_id ∈ get_rl_ids (vehicle (k env)) →
  in_empty_or_None (get_follower (vehicle (k env)) rl_id) = true →
  ∃ obs o,
    get_state POEnv env = Ok obs
    ∧ obs !! rl_id = Some o
    ∧ o !! 3%nat
      = Some (get_speed (vehicle (k env)) rl_id / max_speed (network (k env)))
    ∧ o !! 4%nat = Some 1.
Proof.
  intros Hs Hl Hin Hfol.
  destruct (get_state_base_lookup env rl_id) as (obs & Hobs & Hlook); [done..|].
  exists obs, (Spec.base_vector env rl_id). split; [done|]. split; [done|].
  rewrite visible_in_empty_or_None in Hfol. apply negb_true_iff in Hfol.
  unfold Spec.base_vector, Spec.follow_speed, Spec.follow_headway.
  destruct (get_follower (vehicle (k env)) rl_id) as [f|]; rewrite ?Hfol.
  all: cbn; rewrite Qcdiv_self by done; split; [|done].
  all: do 2 f_equal; ring.
Qed.

Lemma no_follower_features_witness :
  ∃ obs o,
    get_state POEnv scenario = Ok obs
    ∧ obs !! "A" = Some o
    ∧ o !! 3%nat
      = Some (get_speed (vehicle (k scenario)) "A"
              / max_speed (network (k scenario)))
    ∧ o !! 4%nat = Some 1.
Proof.
  apply (no_follower_features scenario "A").
  - by vm_compute.
  - by vm_compute.
  - vm_compute. left.
  - reflexivity.
Defined.

(** X6: With an agent in the step, a zero [max_speed] or a zero network length
    makes the five-feature [get_state] raise [ZeroDivisionError]. *)
Theorem get_state_zero_constant (c : EnvClass) (env : Env) :
  merge_aware c = false →
  get_rl_ids (vehicle (k env)) ≠ [] →
  max_speed (network (k env)) = 0 ∨ length (network (k env)) = 0 →
  get_state c env = Raise ZeroDivisionError.
Proof.
  intros Hc Hids Hzero.
  assert (get_state c env = MultiAgentHighwayPOEnv.get_state env) as ->
    by (by destruct c).
  unfold MultiAgentHighwayPOEnv.get_state.
  destruct (get_rl_ids (vehicle (k env))) as [|x xs]; [done|].
  apply for_update_raises.
  unfold MultiAgentHighwayPOEnv.observation.
  destruct (decide (max_speed (network (k env)) = 0)) as [Hs|Hs].
  - rewrite Hs.
    destruct (in_empty_or_None (get_leader (vehicle (k env)) x));
      destruct (in_empty_or_None (get_follower (vehicle (k env)) x));
      by rewrite py_div_zero.
  - destruct Hzero as [?|Hl]; [done|]. rewrite Hl.
    destruct (in_empty_or_None (get_leader (vehicle (k env)) x));
      destruct (in_empty_or_None (get_follower (vehicle (k env)) x));
      rewrite !(py_div_Ok _ _ Hs); simpl; by rewrite ?py_div_zero.
Qed.

Lemma get_state_zero_constant_witness :
  get_state POEnvLocalReward (make_env lone_vehicles degenerate_network)
  = Raise ZeroDivisionError.
Proof.
  apply (get_state_zero_constant POEnvLocalReward
           (make_env lone_vehicles degenerate_network));
    [reflexivity | discriminate | by left].
Defined.

Lemma base_observation_length (env : Env) (x : string) (o : list Qc) :
  MultiAgentHighwayPOEnv.observation env x = Ok o → List.length o = 5%nat.
Proof.
  unfold MultiAgentHighwayPOEnv.observation.
  destruct (in_empty_or_None (get_leader (vehicle (k env)) x));
    destruct (in_empty_or_None (get_follower (vehicle (k env)) x));
    intros H; inv_bind H; by injection H as <-.
Qed.

(** X7: Every observation that [get_state] returns has the number of components
    that the [observation_space] of its class declares: five, or seven in the
    merge-aware classes. *)
Theorem observation_length_is_declared_shape (c : EnvClass) (env : Env)
    (obs : gmap string (list Qc)) (rl_id : string) (o : list Qc) :
  get_state c env = Ok obs →
  obs !! rl_id = Some o →
  List.length o = shape (observation_space c).
Proof.
  intros Hobs Hlook.
  destruct (merge_aware c) eqn:Hc.
  - assert (get_state c env = get_state POEnvDistanceMergeInfo env) as Heq
      by (by destruct c).
    rewrite Heq in Hobs.
    destruct (merge_info_added_features_bounded env obs rl_id o Hobs Hlook)
      as (o0 & o1 & o2 & o3 & o4 & o5 & o6 & -> & _).
    unfold observation_space. by rewrite Hc.
  - assert (get_state c env = MultiAgentHighwayPOEnv.get_state env) as Heq
      by (by destruct c).
    rewrite Heq in Hobs. unfold observation_space. rewrite Hc. simpl.
    revert rl_id o Hlook.
    eapply (for_update_Forall (λ _ o, List.length o = 5%nat));
      [|apply map_Forall_empty|exact Hobs].
    intros x v. apply base_observation_length.
Qed.

Lemma observation_length_is_declared_shape_witness :
  List.length [frac 11 10; - frac 13 30; frac 3 20; frac 11 10; 1;
               - frac 1 6; frac 2 5]
  = shape (observation_space POEnvDistanceMergeInfo).
Proof.
  apply (observation_length_is_declared_shape POEnvDistanceMergeInfo merge
           {[ "rl_0" := [frac 11 10; - frac 13 30; frac 3 20; frac 11 10; 1;
                         - frac 1 6; frac 2 5] ]} "rl_0").
  - by_decision.
  - reflexivity.
Defined.

Lemma for_update_fmap {V W} (h : V → W) (f : string → result V)
    (g : string → result W) (xs : list string) (d m : gmap string V) :
  (∀ x v, f x = Ok v → g x = Ok (h v)) →
  for_update f xs d = Ok m →
  for_update g xs (h <$> d) = Ok (h <$> m).
Proof.
  intros Hfg. revert d. induction xs as [|a xs IH]; intros d; simpl.
  - by intros [= ->].
  - destruct (f a) as [v|e] eqn:Ea; simpl; [|done].
    rewrite (Hfg a v Ea). simpl. rewrite <- fmap_insert. apply IH.
Qed.

Lemma extended_observation_take (env : Env) (md : Qc) (x : string) (o : list Qc) :
  MultiAgentHighwayPOEnvDistanceMergeInfo.observation env md x = Ok o →
  MultiAgentHighwayPOEnv.observation env x = Ok (take 5 o).
Proof.
  unfold MultiAgentHighwayPOEnvDistanceMergeInfo.observation,
    MultiAgentHighwayPOEnv.observation.
  destruct (in_empty_or_None (get_leader (vehicle (k env)) x));
    destruct (in_empty_or_None (get_follower (vehicle (k env)) x));
    intros H; inv_bind H; injection H as <-;
    repeat match goal with
           | H1 : ?t = Ok _, H2 : ?t = Ok _ |- _ =>
               rewrite H1 in H2; injection H2 as <-
           end;
    repeat match goal with
           | Hd : py_div _ _ = Ok _ |- _ => rewrite Hd; simpl; clear Hd
           end;
    reflexivity.
Qed.

(** X8: The seven-feature encoder extends the five-feature one: whenever it
    returns, the encoder of the base class returns too, and its observations
    are the first five components of the seven, agent by agent. *)
Theorem extended_observation_extends_base (env : Env)
    (obs : gmap string (list Qc)) :
  get_state POEnvDistanceMergeInfo env = Ok obs →
  get_state POEnv env = Ok (take 5 <$> obs).
Proof.
  simpl. unfold MultiAgentHighwayPOEnvDistanceMergeInfo.get_state,
    MultiAgentHighwayPOEnv.get_state.
  intros H. apply bind_Ok_inv in H as (md & _ & H).
  rewrite <- (fmap_empty (take 5)).
  eapply for_update_fmap; [|exact H].
  intros x v. apply extended_observation_take.
Qed.

Lemma extended_observation_extends_base_witness :
  get_state POEnv merge
  = Ok (take 5 <$> {[ "rl_0" := [frac 11 10; - frac 13 30; frac 3 20;
                                 frac 11 10; 1; - frac 1 6; frac 2 5] ]}).
Proof.
  apply (extended_observation_extends_base merge). by_decision.
Defined.

(** ** The two added features *)

Lemma py_max_cases (x y : Qc) : py_max x y = x ∨ py_max x y = y.
Proof. unfold py_max. destruct (decide (x < y)); auto. Qed.

Lemma py_max_list_spec (x : Qc) (l : list Qc) :
  py_max_list x l ∈ x :: l ∧ ∀ y, y ∈ x :: l → y ≤ py_max_list x l.
Proof.
  unfold py_max_list. revert x. induction l as [|a l IH]; intros x; simpl.
  - split; [left|]. intros y Hy. apply list_elem_of_singleton in Hy as ->.
    apply Qcle_refl.
  - destruct (IH (py_max x a)) as [Hin Hmax]. split.
    + apply elem_of_cons in Hin as [Heq | Hin].
      * rewrite Heq. destruct (py_max_cases x a) as [-> | ->];
          [left | right; left].
      * right. by right.
    + intros y Hy.
      assert (py_max x a ≤ foldl py_max (py_max x a) l) as Hhead
        by (apply Hmax; left).
      apply elem_of_cons in Hy as [-> | Hy];
        [|apply elem_of_cons in Hy as [-> | Hy]].
      * eapply Qcle_trans; [apply py_max_ge_l | exact Hhead].
      * eapply Qcle_trans; [apply py_max_ge_r | exact Hhead].
      * apply Hmax. by right.
Qed.

Lemma np_clip_id (x lo hi : Qc) : lo ≤ x → x ≤ hi → np_clip x lo hi = x.
Proof.
  intros Hlo Hhi. unfold np_clip, py_max, py_min.
  destruct (decide (x < lo)) as [H|_]; [by apply Qclt_not_le in H|].
  destruct (decide (hi < x)) as [H|_]; [by apply Qclt_not_le in H|done].
Qed.

Lemma merge_distance_spec (env : Env) (md : Qc) :
  let veh := vehicle (k env) in
  let len_bottom := edge_length (network (k env)) "bottom" in
  MultiAgentHighwayPOEnvDistanceMergeInfo.merge_distance env = Ok md →
  (get_ids_by_edge veh "bottom" = [] → md = 1)
  ∧ (get_ids_by_edge veh "bottom" ≠ [] →
     len_bottom ≠ 0
     ∧ ∃ v, v ∈ get_ids_by_edge veh "bottom"
            ∧ (∀ w, w ∈ get_ids_by_edge veh "bottom" →
                    get_position veh w ≤ get_position veh v)
            ∧ md = (len_bottom - get_position veh v) / len_bottom).
Proof.
  intros veh len_bottom.
  unfold MultiAgentHighwayPOEnvDistanceMergeInfo.merge_distance.
  fold veh len_bottom.
  intros H. apply bind_Ok_inv in H as (start & _ & H).
  destruct (get_ids_by_edge veh "bottom") as [|b bs] eqn:Hvehs.
  - simpl in H. injection H as <-. by split.
  - split; [done|]. intros _.
    rewrite fmap_cons in H. unfold py_div in H.
    destruct (decide (len_bottom = 0)) as [|Hlen]; [done|].
    injection H as <-. split; [done|].
    destruct (py_max_list_spec (get_position veh b) (get_position veh <$> bs))
      as [Hin Hmax].
    rewrite <- fmap_cons in Hin, Hmax.
    apply list_elem_of_fmap in Hin as (v & Hv & Hvin).
    exists v. split; [done|]. split.
    + intros w Hw. rewrite <- Hv. apply Hmax. by apply list_elem_of_fmap_2.
    + by rewrite Hv.
Qed.

Lemma extended_observation_tail (env : Env) (md : Qc) (x : string)
    (o : list Qc) :
  let edge := get_edge (vehicle (k env)) x in
  MultiAgentHighwayPOEnvDistanceMergeInfo.observation env md x = Ok o →
  o !! 6%nat = Some (np_clip md (-1) 1)
  ∧ (edge ∉ ["inflow_highway"; "left"; "center"] → o !! 5%nat = Some 1)
  ∧ (edge ∈ ["inflow_highway"; "left"; "center"] →
     ∃ center_x,
       total_edgestarts_dict (network (k env)) !! "center" = Some center_x
       ∧ center_x ≠ 0
       ∧ o !! 5%nat
         = Some (np_clip ((get_x_by_id (vehicle (k env)) x - center_x)
                          / center_x) (-1) 1)).
Proof.
  intros edge. unfold MultiAgentHighwayPOEnvDistanceMergeInfo.observation.
  fold edge.
  destruct (in_empty_or_None (get_leader (vehicle (k env)) x));
    destruct (in_empty_or_None (get_follower (vehicle (k env)) x));
    intros H;
    apply bind_Ok_inv in H as (cx & Hcx & H);
    apply bind_Ok_inv in H as (dist & Hdist & H);
    inv_bind H; injection H as <-;
    (split; [reflexivity|]);
    unfold getitem in Hcx;
    destruct (total_edgestarts_dict (network (k env)) !! "center")
      as [cx'|] eqn:Ecx; try done;
    injection Hcx as ->;
    (split; intros Hedge;
     [rewrite bool_decide_eq_false_2 in Hdist by done; by injection Hdist as <-
     |rewrite bool_decide_eq_true_2 in Hdist by done;
      unfold py_div in Hdist;
      destruct (decide (cx = 0)) as [|Hne]; [done|];
      injection Hdist as <-; by exists cx]).
Qed.

(** X9: The placeholders of the merge-aware encoder: with no vehicle on [bottom]
    the last component of every observation is 1, and for an agent that is
    not on [inflow_highway], [left] or [center] the sixth is 1; for an agent
    on one of these three edges the sixth is its coordinate relative to the
    start of [center], divided by that start and clipped to [-1, 1]. *)
Theorem merge_features_defaults (env : Env) (obs : gmap string (list Qc))
    (rl_id : string) (o : list Qc) :
  let edge := get_edge (vehicle (k env)) rl_id in
  get_state POEnvDistanceMergeInfo env = Ok obs →
  obs !! rl_id = Some o →
  (get_ids_by_edge (vehicle (k env)) "bottom" = [] → o !! 6%nat = Some 1)
  ∧ (edge ∉ ["inflow_highway"; "left"; "center"] → o !! 5%nat = Some 1)
  ∧ (edge ∈ ["inflow_highway"; "left"; "center"] →
     ∃ center_x,
       total_edgestarts_dict (network (k env)) !! "center" = Some center_x
       ∧ center_x ≠ 0
       ∧ o !! 5%nat
         = Some (np_clip ((get_x_by_id (vehicle (k env)) rl_id - center_x)
                          / center_x) (-1) 1)).
Proof.
  intros edge. subst edge. simpl.
  unfold MultiAgentHighwayPOEnvDistanceMergeInfo.get_state.
  intros H Hlook. apply bind_Ok_inv in H as (md & Hmd & H).
  pose proof (merge_distance_spec env md Hmd) as [Hempty _].
  revert rl_id o Hlook.
  eapply (for_update_Forall
            (λ x o,
               (get_ids_by_edge (vehicle (k env)) "bottom" = []
                → o !! 6%nat = Some 1)
               ∧ (get_edge (vehicle (k env)) x
                    ∉ ["inflow_highway"; "left"; "center"]
                  → o !! 5%nat = Some 1)
               ∧ (get_edge (vehicle (k env)) x
                    ∈ ["inflow_highway"; "left"; "center"] →
                  ∃ center_x,
                    total_edgestarts_dict (network (k env)) !! "center"
                    = Some center_x
                    ∧ center_x ≠ 0
                    ∧ o !! 5%nat
                      = Some (np_clip ((get_x_by_id (vehicle (k env)) x
                                        - center_x) / center_x) (-1) 1))));
    [|apply map_Forall_empty|exact H].
  intros x v Hv.
  destruct (extended_observation_tail env md x v Hv) as (H6 & H5 & H5').
  split; [|by split].
  intros Hnone. rewrite H6, (Hempty Hnone). f_equal; apply np_clip_id; qc_cmp.
Qed.

Lemma merge_features_defaults_witness :
  ∃ center_x,
    total_edgestarts_dict (network (k merge)) !! "center" = Some center_x
    ∧ center_x ≠ 0
    ∧ [frac 11 10; - frac 13 30; frac 3 20; frac 11 10; 1;
       - frac 1 6; frac 2 5] !! 5%nat
      = Some (np_clip ((get_x_by_id (vehicle (k merge)) "rl_0" - center_x)
                       / center_x) (-1) 1).
Proof.
  apply (merge_features_defaults merge
           {[ "rl_0" := [frac 11 10; - frac 13 30; frac 3 20; frac 11 10; 1;
                         - frac 1 6; frac 2 5] ]} "rl_0").
  - by_decision.
  - reflexivity.
  - vm_compute. right. left.
Defined.

(** X10: With vehicles on [bottom], all at positions between 0 and the length of
    the edge, the last component of every observation is the distance that
    the vehicle furthest along [bottom] has left to the end of the edge, as a
    fraction of its length; the clipping does not change it. *)
Theorem merge_feature_is_furthest_vehicle (env : Env)
    (obs : gmap string (list Qc)) (rl_id : string) (o : list Qc) :
  let veh := vehicle (k env) in
  let len_bottom := edge_length (network (k env)) "bottom" in
  get_state POEnvDistanceMergeInfo env = Ok obs →
  obs !! rl_id = Some o →
  get_ids_by_edge veh "bottom" ≠ [] →
  (∀ v, v ∈ get_ids_by_edge veh "bottom" →
        0 ≤ get_position veh v ≤ len_bottom) →
  ∃ v, v ∈ get_ids_by_edge veh "bottom"
       ∧ (∀ w, w ∈ get_ids_by_edge veh "bottom" →
               get_position veh w ≤ get_position veh v)
       ∧ o !! 6%nat = Some ((len_bottom - get_position veh v) / len_bottom)
       ∧ 0 ≤ (len_bottom - get_position veh v) / len_bottom ≤ 1.
Proof.
  intros veh len_bottom. simpl.
  unfold MultiAgentHighwayPOEnvDistanceMergeInfo.get_state.
  intros H Hlook Hvehs Hpos. apply bind_Ok_inv in H as (md & Hmd & H).
  pose proof (merge_distance_spec env md Hmd) as [_ Hsome].
  destruct (Hsome Hvehs) as (Hlen & v & Hv & Hmax & ->).
  fold veh len_bottom in Hlen, Hv, Hmax |- *.
  exists v. split; [done|]. split; [done|].
  destruct (Hpos v Hv) as [Hp0 Hplen].
  assert (0 < len_bottom) as Hlen0.
  { assert (0 ≤ len_bottom) as Hle by (by eapply Qcle_trans).
    destruct (Qcle_lt_or_eq _ _ Hle) as [?|Heq]; [done|].
    by destruct Hlen. }
  assert (0 ≤ / len_bottom) as Hinv
    by (apply Qclt_le_weak; by apply Qcinv_pos).
  assert (0 ≤ (len_bottom - get_position veh v) / len_bottom ≤ 1) as Hrange.
  { split.
    - replace 0 with (0 * / len_bottom) by ring. unfold Qcdiv.
      apply Qcmult_le_compat_r; [|done].
      unfold Qcminus. by apply Qcle_minus_iff in Hplen.
    - rewrite <- (Qcdiv_self len_bottom) by done. unfold Qcdiv.
      apply Qcmult_le_compat_r; [|done].
      apply Qcle_minus_iff.
      replace (len_bottom + - (len_bottom - get_position veh v))
        with (get_position veh v) by ring.
      done. }
  split; [|done].
  assert (map_Forall
            (λ _ o, o !! 6%nat
                    = Some (np_clip ((len_bottom - get_position veh v)
                                     / len_bottom) (-1) 1)) obs) as Hall.
  { eapply for_update_Forall; [|apply map_Forall_empty|exact H].
    intros x w Hw.
    by destruct (extended_observation_tail env _ x w Hw) as (H6 & _). }
  rewrite (Hall rl_id o Hlook). f_equal. apply np_clip_id.
  - eapply Qcle_trans; [|apply Hrange]. qc_cmp.
  - apply Hrange.
Qed.

Lemma merge_feature_is_furthest_vehicle_witness :
  ∃ v, v ∈ get_ids_by_edge (vehicle (k merge)) "bottom"
       ∧ (∀ w, w ∈ get_ids_by_edge (vehicle (k merge)) "bottom" →
               get_position (vehicle (k merge)) w
               ≤ get_position (vehicle (k merge)) v)
       ∧ [frac 11 10; - frac 13 30; frac 3 20; frac 11 10; 1;
          - frac 1 6; frac 2 5] !! 6%nat
         = Some ((edge_length (network (k merge)) "bottom"
                  - get_position (vehicle (k merge)) v)
                 / edge_length (network (k merge)) "bottom")
       ∧ 0 ≤ (edge_length (network (k merge)) "bottom"
              - get_position (vehicle (k merge)) v)
             / edge_length (network (k merge)) "bottom" ≤ 1.
Proof.
  apply (merge_feature_is_furthest_vehicle merge
           {[ "rl_0" := [frac 11 10; - frac 13 30; frac 3 20; frac 11 10; 1;
                         - frac 1 6; frac 2 5] ]} "rl_0").
  - by_decision.
  - reflexivity.
  - discriminate.
  - intros v Hv. vm_compute in Hv.
    apply list_elem_of_singleton in Hv as ->. split; by vm_compute.
Defined.

(** ** Commands sent to the kernel *)

(** X11: When every action vector has a first component, [_apply_rl_actions]
    returns after sending one [apply_acceleration] per entry of the dict, in
    the order of the dict, with that first component; what was sent before
    stays in front. *)
Theorem apply_rl_actions_sends (items : list (string * list Qc))
    (sent : list Command) :
  Forall (λ item, item.2 ≠ []) items →
  MultiAgentHighwayPOEnv._apply_rl_actions (Some items) sent
  = (Ok (), sent ++ (accel_command <$> items)).
Proof.
  intros Hall. unfold MultiAgentHighwayPOEnv._apply_rl_actions.
  destruct items as [|item items]; simpl MultiAgentHighwayPOEnv.truth; cbv iota.
  - by rewrite app_nil_r.
  - by apply apply_items_sends.
Qed.

Lemma apply_rl_actions_sends_witness :
  MultiAgentHighwayPOEnv._apply_rl_actions
    (Some [("rl_0", [frac 1 2]); ("rl_1", [- frac 1 4; 1])])
    [set_observed "human_0"]
  = (Ok (),
     [set_observed "human_0"]
     ++ (accel_command <$> [("rl_0", [frac 1 2]); ("rl_1", [- frac 1 4; 1])])).
Proof.
  apply (apply_rl_actions_sends
           [("rl_0", [frac 1 2]); ("rl_1", [- frac 1 4; 1])]
           [set_observed "human_0"]).
  repeat constructor; discriminate.
Defined.

(** X12: At the first entry whose action vector is empty, [_apply_rl_actions]
    raises [IndexError]; the accelerations of the entries before it have been
    sent, those of the entries after it have not. *)
Theorem apply_rl_actions_index_error (before after : list (string * list Qc))
    (rl_id : string) (sent : list Command) :
  Forall (λ item, item.2 ≠ []) before →
  MultiAgentHighwayPOEnv._apply_rl_actions
    (Some (before ++ (rl_id, []) :: after)) sent
  = (Raise IndexError, sent ++ (accel_command <$> before)).
Proof.
  intros Hall. unfold MultiAgentHighwayPOEnv._apply_rl_actions.
  assert (MultiAgentHighwayPOEnv.truth (Some (before ++ (rl_id, []) :: after))
          = true) as -> by (by destruct before).
  simpl default. revert sent.
  induction Hall as [|[x actions] before Hne _ IH]; intros sent; simpl.
  - by rewrite app_nil_r.
  - destruct actions as [|accel actions]; [done|]. simpl.
    rewrite IH. by rewrite <- app_assoc.
Qed.

Lemma apply_rl_actions_index_error_witness :
  MultiAgentHighwayPOEnv._apply_rl_actions
    (Some ([("rl_0", [frac 1 2])] ++ ("rl_1", []) :: [("rl_2", [1])])) []
  = (Raise IndexError, [] ++ (accel_command <$> [("rl_0", [frac 1 2])])).
Proof.
  apply (apply_rl_actions_index_error
           [("rl_0", [frac 1 2])] [("rl_2", [1])] "rl_1" []).
  repeat constructor; discriminate.
Defined.

Lemma elem_of_mark (x : option string) (c : Command) :
  c ∈ MultiAgentHighwayPOEnv.mark x
  ↔ ∃ v, x = Some v ∧ v ≠ "" ∧ c = set_observed v.
Proof.
  unfold MultiAgentHighwayPOEnv.mark. destruct x as [v|]; simpl.
  - case_bool_decide as Hv.
    + rewrite elem_of_nil. split; [done|]. intros (w & [= <-] & Hw & _). done.
    + rewrite list_elem_of_singleton. split.
      * intros ->. by exists v.
      * by intros (w & [= <-] & _ & ->).
  - rewrite elem_of_nil. split; [done|]. by intros (w & ? & _).
Qed.

Lemma additional_command_app (env : Env) (ids : list string)
    (sent : list Command) :
  foldl (λ sent rl_id,
           sent ++ MultiAgentHighwayPOEnv.mark (get_leader (vehicle (k env)) rl_id)
                ++ MultiAgentHighwayPOEnv.mark
                     (get_follower (vehicle (k env)) rl_id))
        sent ids
  = sent ++ (ids ≫= λ rl_id,
               MultiAgentHighwayPOEnv.mark (get_leader (vehicle (k env)) rl_id)
               ++ MultiAgentHighwayPOEnv.mark
                    (get_follower (vehicle (k env)) rl_id)).
Proof.
  revert sent. induction ids as [|x ids IH]; intros sent; simpl.
  - by rewrite app_nil_r.
  - rewrite IH. by rewrite <- !app_assoc.
Qed.

(** X13: [additional_command] keeps what was sent and adds [set_observed]
    commands only: exactly those for the non-empty leader and follower ids of
    the agents of the step.  It sends no acceleration. *)
Theorem additional_command_marks (env : Env) (sent : list Command) :
  ∃ new,
    MultiAgentHighwayPOEnv.additional_command env sent = sent ++ new
    ∧ ∀ c, c ∈ new
           ↔ ∃ rl_id v,
               rl_id ∈ get_rl_ids (vehicle (k env))
               ∧ v ≠ ""
               ∧ c = set_observed v
               ∧ (get_leader (vehicle (k env)) rl_id = Some v
                  ∨ get_follower (vehicle (k env)) rl_id = Some v).
Proof.
  unfold MultiAgentHighwayPOEnv.additional_command.
  rewrite additional_command_app. eexists. split; [reflexivity|].
  intros c. rewrite list_elem_of_bind. split.
  - intros (rl_id & Hc & Hin). exists rl_id.
    apply elem_of_app in Hc as [Hc | Hc];
      apply elem_of_mark in Hc as (v & Hv & Hne & ->);
      exists v; auto.
  - intros (rl_id & v & Hin & Hne & -> & Hv). exists rl_id. split; [|done].
    apply elem_of_app.
    destruct Hv as [Hv | Hv]; [left | right];
      apply elem_of_mark; by exists v.
Qed.

(** ** The action space and the constructor *)

Lemma check_params_present (keys : list string) (params : gmap string Qc)
    (p : string) :
  MultiAgentHighwayPOEnv.check_params keys params = Ok () →
  p ∈ keys → is_Some (params !! p).
Proof.
  induction keys as [|a keys IH]; intros Hcheck Hp.
  - by apply elem_of_nil in Hp.
  - simpl in Hcheck. case_bool_decide as Ha; [done|].
    apply elem_of_cons in Hp as [-> | Hp]; [|by apply IH].
    by apply not_eq_None_Some.
Qed.

(** X14: Once the parameter check of the constructor has passed, [action_space]
    returns: a box of one component from [-|max_decel|], which is never
    positive, to [max_accel]. *)
Theorem action_space_after_check (env_params : EnvParams) :
  MultiAgentHighwayPOEnv.check_params
    (ADDITIONAL_ENV_PARAMS.*1) (additional_params env_params) = Ok () →
  ∃ max_decel max_accel,
    additional_params env_params !! "max_decel" = Some max_decel
    ∧ additional_params env_params !! "max_accel" = Some max_accel
    ∧ action_space env_params
      = Ok {| low := finite (- np_abs max_decel);
              high := finite max_accel;
              shape := 1 |}
    ∧ - np_abs max_decel ≤ 0
    ∧ (0 ≤ max_accel → - np_abs max_decel ≤ max_accel).
Proof.
  intros Hcheck.
  destruct (check_params_present _ _ "max_decel" Hcheck) as [d Hd];
    [right; left|].
  destruct (check_params_present _ _ "max_accel" Hcheck) as [a Ha]; [left|].
  exists d, a. split; [done|]. split; [done|].
  assert (- np_abs d ≤ 0) as Hlow.
  { unfold np_abs. destruct (decide (d < 0)) as [Hneg|Hpos].
    - rewrite Qcopp_involutive. by apply Qclt_le_weak.
    - apply Qcnot_lt_le in Hpos. apply Qcle_minus_iff.
      by rewrite Qcopp_involutive, Qcplus_0_l. }
  split; [|split; [done|]].
  - unfold action_space, getitem. by rewrite Hd, Ha.
  - intros Hacc. by eapply Qcle_trans.
Qed.

Lemma action_space_after_check_witness :
  ∃ max_decel max_accel,
    additional_params training_params !! "max_decel" = Some max_decel
    ∧ additional_params training_params !! "max_accel" = Some max_accel
    ∧ action_space training_params
      = Ok {| low := finite (- np_abs max_decel);
              high := finite max_accel;
              shape := 1 |}
    ∧ - np_abs max_decel ≤ 0
    ∧ (0 ≤ max_accel → - np_abs max_decel ≤ max_accel).
Proof. apply (action_space_after_check training_params). reflexivity. Defined.

(** X15: The constructor names the first missing key in the order [max_accel],
    [max_decel], [target_velocity], whatever else is missing. *)
Theorem init_names_first_missing_key {SimParams NetworkSpec : Type}
    (super_init : EnvParams → SimParams → NetworkSpec → string → result Env)
    (env_params : EnvParams) (sim_params : SimParams) (net : NetworkSpec)
    (simulator : string) :
  let params := additional_params env_params in
  let init :=
    MultiAgentHighwayPOEnv.__init__
      super_init env_params sim_params net simulator in
  (params !! "max_accel" = None →
   init = Raise (KeyError (MultiAgentHighwayPOEnv.not_supplied "max_accel")))
  ∧ (is_Some (params !! "max_accel") →
     params !! "max_decel" = None →
     init = Raise (KeyError (MultiAgentHighwayPOEnv.not_supplied "max_decel")))
  ∧ (is_Some (params !! "max_accel") →
     is_Some (params !! "max_decel") →
     params !! "target_velocity" = None →
     init
     = Raise (KeyError (MultiAgentHighwayPOEnv.not_supplied "target_velocity"))).
Proof.
  intros params init. subst params init.
  unfold MultiAgentHighwayPOEnv.__init__.
  change (ADDITIONAL_ENV_PARAMS.*1)
    with ["max_accel"; "max_decel"; "target_velocity"].
  simpl MultiAgentHighwayPOEnv.check_params.
  split; [|split].
  - intros Ha. by rewrite bool_decide_eq_true_2.
  - intros [a Ha] Hd.
    rewrite bool_decide_eq_false_2 by (by rewrite Ha).
    by rewrite bool_decide_eq_true_2.
  - intros [a Ha] [d Hd] Ht.
    rewrite bool_decide_eq_false_2 by (by rewrite Ha).
    rewrite bool_decide_eq_false_2 by (by rewrite Hd).
    by rewrite bool_decide_eq_true_2.
Qed.

Lemma init_names_first_missing_key_witness :
  MultiAgentHighwayPOEnv.__init__
    (λ _ _ _ _, Ok scenario) incomplete_params () () "traci"
  = Raise (KeyError (MultiAgentHighwayPOEnv.not_supplied "target_velocity")).
Proof.
  apply (init_names_first_missing_key
           (λ _ _ _ _, Ok scenario) incomplete_params () () "traci");
    [by eexists | by eexists | reflexivity].
Defined.

(** ** The backward traversal *)

Lemma backward_pass_S (depth : nat) (env : Env) (edge : string) (lane : Z)
    (junctions : gset string) :
  MultiAgentHighwayPOEnvLocalReward._veh_edge_lane_backward_pass
    (S depth) env edge lane junctions
  = foldl (backward_step env junctions
             (λ e l, MultiAgentHighwayPOEnvLocalReward._veh_edge_lane_backward_pass
                       depth env e l junctions))
          (Ok []) (prev_edge (network (k env)) edge lane).
Proof.
  simpl. generalize (Ok [] : result (list string)).
  induction (prev_edge (network (k env)) edge lane) as [|[pe pl] ps IH];
    intros acc; simpl; [done|].
  rewrite IH. f_equal.
Qed.

Lemma backward_fold_Raise (env : Env) (junctions : gset string)
    (up : string → Z → result (list string)) (e : exn)
    (ps : list (string * Z)) :
  foldl (backward_step env junctions up) (Raise e) ps = Raise e.
Proof. induction ps as [|p ps IH]; simpl; [done|]. apply IH. Qed.

(** What a loop over the predecessors that returned has gone through. *)
Lemma backward_fold_Ok (env : Env) (junctions : gset string)
    (up : string → Z → result (list string)) (ps : list (string * Z))
    (acc : result (list string)) (veh : list string) :
  foldl (backward_step env junctions up) acc ps = Ok veh →
  ∃ veh0,
    acc = Ok veh0
    ∧ (∀ p, p ∈ ps → p.1 ∈ junctions → ∃ above, up p.1 p.2 = Ok above)
    ∧ ∀ v, v ∈ veh
           ↔ v ∈ veh0
             ∨ ∃ p, p ∈ ps
                    ∧ (v ∈ MultiAgentHighwayPOEnvLocalReward._veh_edge_lane
                             env p.1 p.2
                       ∨ p.1 ∈ junctions
                         ∧ ∃ above, up p.1 p.2 = Ok above ∧ v ∈ above).
Proof.
  revert acc. induction ps as [|p ps IH]; intros acc; simpl.
  - intros ->. exists veh. split; [done|]. split.
    + intros p Hp. by apply elem_of_nil in Hp.
    + intros v. split; [auto|]. intros [?|(p & Hp & _)]; [done|].
      by apply elem_of_nil in Hp.
  - intros H. destruct (IH _ H) as (veh1 & Hstep & Hup & Hmem).
    unfold backward_step in Hstep.
    apply bind_Ok_inv in Hstep as (veh0 & -> & Hstep).
    apply bind_Ok_inv in Hstep as (veh' & Hj & Hstep).
    injection Hstep as <-.
    exists veh0. split; [done|].
    destruct (decide (p.1 ∈ junctions)) as [Hin|Hnin].
    + rewrite bool_decide_eq_true_2 in Hj by done.
      apply bind_Ok_inv in Hj as (above & Habove & Hj). injection Hj as <-.
      split.
      * intros q Hq Hqj. apply elem_of_cons in Hq as [-> | Hq];
          [by exists above | by apply Hup].
      * intros v. rewrite Hmem, !elem_of_app. split.
        -- intros [[[?|Ha]|Hl] | (q & Hq & Hv)].
           ++ by left.
           ++ right. exists p. split; [left|]. right. split; [done|].
              by exists above.
           ++ right. exists p. split; [left|]. by left.
           ++ right. exists q. split; [by right | done].
        -- intros [? | (q & Hq & Hv)]; [by left; left; left|].
           apply elem_of_cons in Hq as [-> | Hq].
           ++ left. destruct Hv as [Hl | (_ & a' & Ha' & Hv)]; [by right|].
              left. right. rewrite Habove in Ha'. by injection Ha' as <-.
           ++ right. by exists q.
    + rewrite bool_decide_eq_false_2 in Hj by done. injection Hj as <-.
      split.
      * intros q Hq Hqj. apply elem_of_cons in Hq as [-> | Hq];
          [done | by apply Hup].
      * intros v. rewrite Hmem, !elem_of_app. split.
        -- intros [[?|Hl] | (q & Hq & Hv)].
           ++ by left.
           ++ right. exists p. split; [left|]. by left.
           ++ right. exists q. split; [by right | done].
        -- intros [? | (q & Hq & Hv)]; [by left; left|].
           apply elem_of_cons in Hq as [-> | Hq].
           ++ left. destruct Hv as [Hl | (? & _)]; [by right | done].
           ++ right. by exists q.
Qed.

Lemma backward_pass_only_RecursionError (depth : nat) (env : Env)
    (edge : string) (lane : Z) (junctions : gset string) (e : exn) :
  MultiAgentHighwayPOEnvLocalReward._veh_edge_lane_backward_pass
    depth env edge lane junctions = Raise e →
  e = RecursionError.
Proof.
  revert edge lane e. induction depth as [|d IH]; intros edge lane e.
  - simpl. by intros [= <-].
  - rewrite backward_pass_S.
    assert (∀ e0, (Ok [] : result (list string)) = Raise e0
                  → e0 = RecursionError) as Hacc by done.
    revert Hacc. generalize (Ok [] : result (list string)).
    induction (prev_edge (network (k env)) edge lane) as [|p ps IHps];
      intros acc Hacc; simpl; [apply Hacc|].
    apply IHps. intros e0. unfold backward_step.
    destruct acc as [veh0|e1]; simpl.
    + destruct (bool_decide (p.1 ∈ junctions)); [|done].
      destruct (MultiAgentHighwayPOEnvLocalReward._veh_edge_lane_backward_pass
                  d env p.1 p.2 junctions) as [above|e'] eqn:Hup; simpl;
        [done|].
      intros [= <-]. by eapply IH.
    + intros [= <-]. by apply Hacc.
Qed.

(** X16: The traversal does not depend on the depth it is allowed: once it
    returns, it returns the same vehicles at every greater depth. *)
Theorem backward_pass_depth_monotone (depth depth' : nat) (env : Env)
    (edge : string) (lane : Z) (junctions : gset string) (veh : list string) :
  MultiAgentHighwayPOEnvLocalReward._veh_edge_lane_backward_pass
    depth env edge lane junctions = Ok veh →
  (depth ≤ depth')%nat →
  MultiAgentHighwayPOEnvLocalReward._veh_edge_lane_backward_pass
    depth' env edge lane junctions = Ok veh.
Proof.
  revert depth' edge lane veh.
  induction depth as [|d IH]; intros depth' edge lane veh; [done|].
  intros H Hle. destruct depth' as [|d']; [lia|].
  rewrite backward_pass_S in H |- *. revert H.
  generalize (Ok [] : result (list string)).
  induction (prev_edge (network (k env)) edge lane) as [|p ps IHps];
    intros acc; simpl; [done|].
  intros H. destruct (backward_fold_Ok _ _ _ _ _ _ H) as (veh1 & Hstep & _).
  assert (backward_step env junctions
            (λ e l, MultiAgentHighwayPOEnvLocalReward._veh_edge_lane_backward_pass
                      d' env e l junctions) acc p = Ok veh1) as Hstep'.
  { unfold backward_step in Hstep |- *.
    apply bind_Ok_inv in Hstep as (veh0 & -> & Hstep). simpl.
    destruct (bool_decide (p.1 ∈ junctions)); [|done].
    apply bind_Ok_inv in Hstep as (veh2 & Hup & Hstep).
    apply bind_Ok_inv in Hup as (above & Hup & Hveh2).
    rewrite (IH d' _ _ _ Hup) by lia. simpl.
    injection Hveh2 as <-. done. }
  rewrite Hstep'. apply IHps. by rewrite <- Hstep.
Qed.

Lemma backward_pass_depth_monotone_witness :
  MultiAgentHighwayPOEnvLocalReward._veh_edge_lane_backward_pass
    1000 merge "center" 0 (list_to_set (get_junction_list (network (k merge))))
  = Ok ["rl_0"; "human_1"].
Proof.
  apply (backward_pass_depth_monotone 2 1000 merge "center" 0
           (list_to_set (get_junction_list (network (k merge))))
           ["rl_0"; "human_1"]).
  - by_decision.
  - lia.
Defined.

Lemma backward_pass_on_cycle (env : Env) (junctions : gset string)
    (cycle : string * Z → Prop) :
  (∀ p, cycle p →
        ∃ q, q ∈ prev_edge (network (k env)) p.1 p.2
             ∧ q.1 ∈ junctions ∧ cycle q) →
  ∀ depth p,
    cycle p →
    MultiAgentHighwayPOEnvLocalReward._veh_edge_lane_backward_pass
      depth env p.1 p.2 junctions = Raise RecursionError.
Proof.
  intros Hcycle depth. induction depth as [|d IH]; intros p Hp; [done|].
  destruct (MultiAgentHighwayPOEnvLocalReward._veh_edge_lane_backward_pass
              (S d) env p.1 p.2 junctions) as [veh|e] eqn:H.
  - rewrite backward_pass_S in H.
    destruct (backward_fold_Ok _ _ _ _ _ _ H) as (_ & _ & Hup & _).
    destruct (Hcycle p Hp) as (q & Hq & Hqj & Hqc).
    destruct (Hup q Hq Hqj) as [above Habove].
    by rewrite (IH q Hqc) in Habove.
  - f_equal. by eapply backward_pass_only_RecursionError.
Qed.

(** X17: The traversal has no guard against a cycle: on a set of lanes each of
    which has a junction of the set among its predecessors, it raises
    [RecursionError] at every depth. *)
Theorem backward_pass_cycle_raises (env : Env) (junctions : gset string)
    (cycle : string * Z → Prop) (depth : nat) (edge : string) (lane : Z) :
  (∀ p, cycle p →
        ∃ q, q ∈ prev_edge (network (k env)) p.1 p.2
             ∧ q.1 ∈ junctions ∧ cycle q) →
  cycle (edge, lane) →
  MultiAgentHighwayPOEnvLocalReward._veh_edge_lane_backward_pass
    depth env edge lane junctions = Raise RecursionError.
Proof.
  intros Hcycle Hstart.
  apply (backward_pass_on_cycle env junctions cycle Hcycle depth (edge, lane)
           Hstart).
Qed.

Lemma backward_pass_cycle_raises_witness :
  MultiAgentHighwayPOEnvLocalReward._veh_edge_lane_backward_pass
    1000 ring ":loop" 0 (list_to_set (get_junction_list (network (k ring))))
  = Raise RecursionError.
Proof.
  apply (backward_pass_cycle_raises ring
           (list_to_set (get_junction_list (network (k ring))))
           (λ p, p = (":loop", 0%Z)) 1000 ":loop" 0).
  - intros p ->. exists (":loop", 0%Z). split; [left|].
    split; [|done]. apply elem_of_list_to_set. left.
  - reflexivity.
Defined.

(** X18: With such a cycle among the junctions upstream of the first agent, the
    local reward raises [RecursionError] on a step without failure. *)
Theorem local_reward_cycle_raises (env : Env) (acts : list (string * list Qc))
    (kwargs : gmap string bool) (cycle : string * Z → Prop)
    (x : string) (xs : list string) :
  let junctions : gset string :=
    list_to_set (get_junction_list (network (k env))) in
  get_rl_ids (vehicle (k env)) = x :: xs →
  kwargs !! "fail" = Some false →
  (∀ p, cycle p →
        ∃ q, q ∈ prev_edge (network (k env)) p.1 p.2
             ∧ q.1 ∈ junctions ∧ cycle q) →
  (∃ q, q ∈ prev_edge (network (k env))
              (get_edge (vehicle (k env)) x) (get_lane (vehicle (k env)) x)
        ∧ q.1 ∈ junctions ∧ cycle q) →
  compute_reward POEnvLocalReward env (Some acts) kwargs
  = Raise RecursionError.
Proof.
  intros junctions Hids Hfail Hcycle Hfirst. simpl. rewrite Hids.
  apply for_update_raises.
  unfold MultiAgentHighwayPOEnvLocalReward._compute_avgspeednormalized_agent,
    MultiAgentHighwayPOEnvLocalReward._compute_avgspeed_agent,
    kwargs_fail, getitem.
  rewrite Hfail. simpl. fold junctions.
  set (start := (get_edge (vehicle (k env)) x, get_lane (vehicle (k env)) x)).
  assert (MultiAgentHighwayPOEnvLocalReward._veh_edge_lane_backward_pass
            (recursion_limit env) env start.1 start.2 junctions
          = Raise RecursionError) as Hraise.
  { apply (backward_pass_on_cycle env junctions (λ p, cycle p ∨ p = start));
      [|by right].
    intros p [Hp | ->];
      [destruct (Hcycle p Hp) as (q & ? & ? & ?)
      |destruct Hfirst as (q & ? & ? & ?)];
      exists q; auto. }
  simpl in Hraise. by rewrite Hraise.
Qed.

Lemma local_reward_cycle_raises_witness :
  compute_reward POEnvLocalReward ring (Some []) {[ "fail" := false ]}
  = Raise RecursionError.
Proof.
  apply (local_reward_cycle_raises ring [] {[ "fail" := false ]}
           (λ p, p = (":loop", 0%Z)) "rl_0" []).
  - reflexivity.
  - reflexivity.
  - intros p ->. exists (":loop", 0%Z). split; [left|].
    split; [|done]. apply elem_of_list_to_set. left.
  - exists (":loop", 0%Z). split; [left|].
    split; [|done]. apply elem_of_list_to_set. left.
Defined.

(** X19: When the traversal returns, it has collected exactly the vehicles that
    are on a lane upstream: on a predecessor, or on a predecessor reached
    through predecessors that are junctions, with the lane number that the
    predecessor relation gives. *)
Theorem backward_pass_collects_upstream (depth : nat) (env : Env)
    (edge : string) (lane : Z) (junctions : gset string) (veh : list string) :
  MultiAgentHighwayPOEnvLocalReward._veh_edge_lane_backward_pass
    depth env edge lane junctions = Ok veh →
  ∀ v, v ∈ veh
       ↔ ∃ e l, upstream env junctions (edge, lane) (e, l)
                ∧ v ∈ get_ids_by_edge (vehicle (k env)) e
                ∧ get_lane (vehicle (k env)) v = l.
Proof.
  revert edge lane veh. induction depth as [|d IH]; intros edge lane veh;
    [done|].
  rewrite backward_pass_S. intros H v.
  destruct (backward_fold_Ok _ _ _ _ _ _ H) as (veh0 & [= <-] & Hup & Hmem).
  rewrite Hmem. split.
  - intros [Hnil | ([pe pl] & Hp & Hv)]; [by apply elem_of_nil in Hnil|].
    simpl in Hv. destruct Hv as [Hv | (Hj & above & Habove & Hv)].
    + apply list_elem_of_filter in Hv as [Hlane Hv].
      exists pe, pl. split; [by apply upstream_prev | done].
    + apply (IH _ _ _ Habove) in Hv as (e & l & Hu & Hv).
      exists e, l. split; [|done]. by eapply upstream_junction.
  - intros (e & l & Hu & Hv & <-). right.
    inversion Hu as [? ? ? Hp | ? ? pe pl ? Hp Hj Hu']; subst.
    + exists (e, get_lane (vehicle (k env)) v). split; [done|]. left.
      apply list_elem_of_filter. by split.
    + exists (pe, pl). split; [done|]. right. split; [done|].
      destruct (Hup (pe, pl) Hp Hj) as [above Habove].
      exists above. split; [done|].
      apply (IH _ _ _ Habove). by exists e, (get_lane (vehicle (k env)) v).
Qed.

Lemma backward_pass_collects_upstream_witness :
  "human_1" ∈ ["rl_0"; "human_1"]
  ↔ ∃ e l,
      upstream merge (list_to_set (get_junction_list (network (k merge))))
        ("center", 0%Z) (e, l)
      ∧ "human_1" ∈ get_ids_by_edge (vehicle (k merge)) e
      ∧ get_lane (vehicle (k merge)) "human_1" = l.
Proof.
  apply (backward_pass_collects_upstream 2 merge "center" 0
           (list_to_set (get_junction_list (network (k merge))))
           ["rl_0"; "human_1"]).
  by_decision.
Defined.

(** ** The local reward *)

Lemma sum_lower_bound (b : Qc) (vel : list Qc) :
  MultiAgentHighwayPOEnvLocalReward.any_below b vel = false →
  b * Qc_of_Z (Z.of_nat (List.length vel))
  ≤ MultiAgentHighwayPOEnvLocalReward.np_sum vel.
Proof.
  induction vel as [|a vel IH]; intros Hany.
  - change (b * Qc_of_Z 0 ≤ 0).
    rewrite Z2Qc_inj_0, Qcmult_0_r. apply Qcle_refl.
  - simpl in Hany. apply orb_false_iff in Hany as [Ha Hany].
    apply bool_decide_eq_false_1 in Ha. apply Qcnot_lt_le in Ha.
    change (b * Qc_of_Z (Z.of_nat (S (List.length vel)))
            ≤ a + MultiAgentHighwayPOEnvLocalReward.np_sum vel).
    rewrite Nat2Z.inj_succ, <- Z.add_1_l, Z2Qc_inj_add, Z2Qc_inj_1.
    rewrite Qcmult_plus_distr_r, Qcmult_1_r.
    apply Qcplus_le_compat; [done | by apply IH].
Qed.

Lemma mean_lower_bound (b : Qc) (vel : list Qc) :
  MultiAgentHighwayPOEnvLocalReward.any_below b vel = false →
  vel ≠ [] →
  b ≤ MultiAgentHighwayPOEnvLocalReward.np_sum vel
      / Qc_of_Z (Z.of_nat (List.length vel)).
Proof.
  intros Hany Hne.
  set (n := Qc_of_Z (Z.of_nat (List.length vel))).
  assert (0 < n) as Hn.
  { unfold n. rewrite <- Z2Qc_inj_0. apply (proj1 (Z2Qc_inj_lt _ _)).
    destruct vel; [done | simpl; lia]. }
  replace b with (b * n / n).
  - unfold Qcdiv. apply Qcmult_le_compat_r; [by apply sum_lower_bound|].
    apply Qclt_le_weak. by apply Qcinv_pos.
  - unfold Qcdiv. rewrite <- Qcmult_assoc, Qcmult_inv_r, Qcmult_1_r; [done|].
    intros H0. rewrite H0 in Hn. by apply Qclt_not_eq in Hn.
Qed.

(** X20: Readings below -100 never reach the local average: what
    [_compute_avgspeed_agent] returns is never below -100. *)
Theorem avgspeed_agent_lower_bound (env : Env) (kwargs : gmap string bool)
    (rl_id : string) (r : Qc) :
  MultiAgentHighwayPOEnvLocalReward._compute_avgspeed_agent env kwargs rl_id
  = Ok r →
  - frac 100 1 ≤ r.
Proof.
  unfold MultiAgentHighwayPOEnvLocalReward._compute_avgspeed_agent.
  intros H. apply bind_Ok_inv in H as (fail & _ & H).
  destruct fail; [injection H as <-; qc_cmp|].
  apply bind_Ok_inv in H as (back & _ & H).
  case_bool_decide as Hlen; [injection H as <-; qc_cmp|].
  destruct (MultiAgentHighwayPOEnvLocalReward.any_below _ _) eqn:Hany;
    [injection H as <-; qc_cmp|].
  unfold py_div in H. destruct (decide _); [done|]. injection H as <-.
  apply mean_lower_bound; [done|].
  intros Hnil. apply Hlen. apply fmap_nil_inv in Hnil. by rewrite Hnil.
Qed.

Lemma avgspeed_agent_lower_bound_witness : - frac 100 1 ≤ frac 43 2.
Proof.
  apply (avgspeed_agent_lower_bound merge {[ "fail" := false ]} "human_0"
           (frac 43 2)).
  by_decision.
Defined.

(** X21: On a step with failure the local reward of every agent is 0 when the
    speed limits of the agents' edges are not zero; when the speed limit of
    the first agent's edge is zero it raises [ZeroDivisionError] instead. *)
Theorem local_reward_on_failure (env : Env) (acts : list (string * list Qc))
    (kwargs : gmap string bool) :
  kwargs !! "fail" = Some true →
  ((∀ rl_id, rl_id ∈ get_rl_ids (vehicle (k env)) →
             speed_limit (network (k env)) (get_edge (vehicle (k env)) rl_id)
             ≠ 0) →
   compute_reward POEnvLocalReward env (Some acts) kwargs
   = Ok (gset_to_gmap 0 (list_to_set (get_rl_ids (vehicle (k env))))))
  ∧ (∀ x xs,
       get_rl_ids (vehicle (k env)) = x :: xs →
       speed_limit (network (k env)) (get_edge (vehicle (k env)) x) = 0 →
       compute_reward POEnvLocalReward env (Some acts) kwargs
       = Raise ZeroDivisionError).
Proof.
  intros Hfail. split.
  - intros Hlimit. simpl. apply for_update_const. intros x Hx.
    unfold MultiAgentHighwayPOEnvLocalReward._compute_avgspeednormalized_agent.
    rewrite avgspeed_agent_on_failure by done. simpl.
    rewrite py_div_Ok by auto. f_equal. unfold Qcdiv. apply Qcmult_0_l.
  - intros x xs Hids Hzero. simpl. rewrite Hids. apply for_update_raises.
    unfold MultiAgentHighwayPOEnvLocalReward._compute_avgspeednormalized_agent.
    rewrite avgspeed_agent_on_failure by done. simpl.
    by rewrite Hzero, py_div_zero.
Qed.

Lemma local_reward_on_failure_witness :
  compute_reward POEnvLocalReward merge (Some []) {[ "fail" := true ]}
  = Ok (gset_to_gmap 0 (list_to_set (get_rl_ids (vehicle (k merge)))))
  ∧ compute_reward POEnvLocalReward
      (make_env lone_vehicles degenerate_network) (Some [])
      {[ "fail" := true ]}
    = Raise ZeroDivisionError.
Proof.
  split.
  - destruct (local_reward_on_failure merge [] {[ "fail" := true ]}) as [H _];
      [reflexivity|].
    apply H. intros rl_id Hid. vm_compute in Hid.
    apply list_elem_of_singleton in Hid as ->. by vm_compute.
  - destruct (local_reward_on_failure
                (make_env lone_vehicles degenerate_network) []
                {[ "fail" := true ]}) as [_ H]; [reflexivity|].
    apply (H "A" []); reflexivity.
Defined.

(** X22: With an agent in the step, the merge-aware [get_state] needs the start
    of the edge [center]: when the table of edge starts has [bottom] and not
    [center], it raises [KeyError] for [center]. *)
Theorem merge_info_needs_center (c : EnvClass) (env : Env) :
  merge_aware c = true →
  get_rl_ids (vehicle (k env)) ≠ [] →
  is_Some (total_edgestarts_dict (network (k env)) !! "bottom") →
  get_ids_by_edge (vehicle (k env)) "bottom" = []
  ∨ edge_length (network (k env)) "bottom" ≠ 0 →
  total_edgestarts_dict (network (k env)) !! "center" = None →
  get_state c env = Raise (KeyError "center").
Proof.
  intros Hc Hids [start Hstart] Hbottom Hcenter.
  assert (get_state c env
          = MultiAgentHighwayPOEnvDistanceMergeInfo.get_state env) as ->
    by (by destruct c).
  unfold MultiAgentHighwayPOEnvDistanceMergeInfo.get_state.
  assert (∃ md, MultiAgentHighwayPOEnvDistanceMergeInfo.merge_distance env
                = Ok md) as [md ->].
  { unfold MultiAgentHighwayPOEnvDistanceMergeInfo.merge_distance, getitem.
    rewrite Hstart. simpl.
    destruct Hbottom as [-> | Hlen]; [by eexists|].
    destruct (get_position (vehicle (k env))
                <$> get_ids_by_edge (vehicle (k env)) "bottom");
      [by eexists|].
    rewrite py_div_Ok by done. by eexists. }
  simpl. destruct (get_rl_ids (vehicle (k env))) as [|x xs]; [done|].
  apply for_update_raises.
  unfold MultiAgentHighwayPOEnvDistanceMergeInfo.observation, getitem.
  rewrite Hcenter.
  by destruct (in_empty_or_None (get_leader (vehicle (k env)) x));
    destruct (in_empty_or_None (get_follower (vehicle (k env)) x)).
Qed.

Lemma merge_info_needs_center_witness :
  get_state POEnvDistanceMergeInfoNegative (make_env lone_vehicles ramp_network)
  = Raise (KeyError "center").
Proof.
  apply (merge_info_needs_center POEnvDistanceMergeInfoNegative
           (make_env lone_vehicles ramp_network)).
  - reflexivity.
  - discriminate.
  - by eexists.
  - by left.
  - reflexivity.
Defined.

Lemma table_elem {V} (error : V) (rows : list (string * V)) (id : string) :
  table error rows id = error ∨ (id, table error rows id) ∈ rows.
Proof.
  unfold table.
  destruct ((list_to_map rows : gmap string V) !! id) as [v|] eqn:Hid;
    [right | by left].
  by apply elem_of_list_to_map_2.
Qed.

Lemma merge_rank_decreases (e : string) (l : Z) (e' : string) (l' : Z) :
  (e', l') ∈ prev_edge (network (k merge)) e l →
  e' ∈ (list_to_set (get_junction_list (network (k merge))) : gset string) →
  (merge_rank e' l' < merge_rank e l)%nat.
Proof.
  intros Hin Hj. simpl in Hin.
  apply elem_of_list_to_set in Hj. simpl in Hj.
  match type of Hin with
  | _ ∈ table ?d ?rows e => destruct (table_elem d rows e) as [Hnone | Hrow]
  end.
  { rewrite Hnone in Hin. by apply elem_of_nil in Hin. }
  repeat (apply elem_of_cons in Hrow as [Hrow | Hrow]);
    [..|by apply elem_of_nil in Hrow].
  all: injection Hrow as -> Hrow; rewrite <- Hrow in Hin; clear Hrow.
  all: repeat (apply elem_of_cons in Hin as [Hin | Hin]);
    [..|by apply elem_of_nil in Hin].
  all: injection Hin as -> ->.
  all: try (vm_compute; lia).
  all: repeat (apply elem_of_cons in Hj as [Hj | Hj]; [discriminate|]).
  all: by apply elem_of_nil in Hj.
Qed.

(** X23: The local reward returns when the junctions upstream are ranked: with
    [fail] among the keyword arguments, a rank that every step to a
    predecessor junction lowers and that stays below the recursion limit on
    the agents' lanes, and non-zero speed limits on the agents' edges,
    [compute_reward] returns a reward for exactly the agents of the step. *)
Theorem local_reward_returns (env : Env) (acts : list (string * list Qc))
    (kwargs : gmap string bool) (rank : string → Z → nat) :
  is_Some (kwargs !! "fail") →
  (∀ e l e' l',
     (e', l') ∈ prev_edge (network (k env)) e l →
     e' ∈ (list_to_set (get_junction_list (network (k env))) : gset string) →
     (rank e' l' < rank e l)%nat) →
  (∀ rl_id,
     rl_id ∈ get_rl_ids (vehicle (k env)) →
     (rank (get_edge (vehicle (k env)) rl_id)
           (get_lane (vehicle (k env)) rl_id)
      < recursion_limit env)%nat
     ∧ speed_limit (network (k env)) (get_edge (vehicle (k env)) rl_id) ≠ 0) →
  ∃ rewards,
    compute_reward POEnvLocalReward env (Some acts) kwargs = Ok rewards
    ∧ dom rewards = list_to_set (get_rl_ids (vehicle (k env))).
Proof.
  intros Hfail Hrank Hids.
  destruct (compute_reward_returns POEnvLocalReward env acts kwargs Hfail)
    as [rewards Hr].
  { intros _. by exists rank. }
  exists rewards. split; [done|].
  simpl in Hr. apply for_update_dom in Hr. rewrite Hr. set_solver.
Qed.

Lemma local_reward_returns_witness :
  ∃ rewards,
    compute_reward POEnvLocalReward merge (Some []) {[ "fail" := false ]}
    = Ok rewards
    ∧ dom rewards = list_to_set (get_rl_ids (vehicle (k merge))).
Proof.
  apply (local_reward_returns merge [] {[ "fail" := false ]} merge_rank).
  - by eexists.
  - exact merge_rank_decreases.
  - intros rl_id Hid. vm_compute in Hid.
    apply list_elem_of_singleton in Hid as ->.
    split; [vm_compute; lia | by vm_compute].
Defined.
